(** * Data-Visualization---Project: the dashboard pages' data transformations

    A shallow embedding of the pandas pipelines of two Streamlit pages:

    - [JobRoles]: "A multidimensional comparative analysis of job roles in
      the field of AI.py" (metric selection guard, per-metric aggregation
      over [job_title], min-max normalization with the 0.02 floor,
      concatenation into [plot_df], the pivot of the raw values);
    - [SkillWars]: "AI Skills Landscape in the Job Market Demand vs.
      Salary.py" in its two copies (the skills column of the loaded frame,
      the selection of experience levels and the view scenario, aggregation
      per skill, the [Job_Count >= 10] filter, the [Score] column,
      [nlargest] and [Label], the position of the labels, the two tables
      under the chart).

    Conventions.  A pandas float is an [option Q]: [None] is NaN (a missing
    value) and [Some q] is a number, with exact rational arithmetic standing
    for binary64 arithmetic.  Infinities are not represented: the
    normalization divides only behind its guard against a zero range, and
    the statements on the score take the two column maxima to be non-zero.
    A script that calls [st.stop()] or dies of an exception it does not
    handle is a function into an outcome type. *)

From Stdlib Require Import List String Ascii Bool ZArith QArith Qminmax Qround.
From Stdlib Require Import Lia Lqa Permutation Sorted OrderedTypeEx.
Import ListNotations.

Local Open Scope Q_scope.

(** ** pandas: float series with NaN *)

Module Pandas.

(** A float cell: [None] is NaN. *)
Definition float := option Q.

Definition lift2 (f : Q -> Q -> Q) (a b : float) : float :=
  match a, b with
  | Some x, Some y => Some (f x y)
  | _, _ => None
  end.

Definition fadd : float -> float -> float := lift2 Qplus.
Definition fsub : float -> float -> float := lift2 Qminus.

(** Division of numbers by a number that is not zero.  A division by zero,
    which gives NaN or an infinity in binary64, has no counterpart here: the
    normalization divides behind its guard only, and every statement on the
    values of a score assumes non-zero column maxima. *)
Definition fdiv : float -> float -> float := lift2 Qdiv.

(** [x == 0] on floats: a comparison with NaN is [False]. *)
Definition feq0 (a : float) : bool :=
  match a with
  | Some x => Qeq_bool x 0
  | None => false
  end.

(** Equality of float cells up to the representation of the rational. *)
Definition feq (a b : float) : Prop :=
  match a, b with
  | Some x, Some y => x == y
  | None, None => True
  | _, _ => False
  end.

(** [Series.min()] and [Series.max()]: NaN entries are skipped
    ([skipna=True]); the result is NaN when nothing is left. *)
Definition nan_min (a b : float) : float :=
  match a, b with
  | Some x, Some y => Some (Qmin x y)
  | Some x, None => Some x
  | None, y => y
  end.

Definition nan_max (a b : float) : float :=
  match a, b with
  | Some x, Some y => Some (Qmax x y)
  | Some x, None => Some x
  | None, y => y
  end.

Definition series_min (s : list float) : float := fold_right nan_min None s.
Definition series_max (s : list float) : float := fold_right nan_max None s.

(** [Series.clip(lower=lo)]: numbers below [lo] become [lo], NaN stays. *)
Definition clip_lower (lo : Q) (a : float) : float :=
  match a with
  | Some x => Some (if Qle_bool lo x then x else lo)
  | None => None
  end.

(** The non-null entries of a series. *)
Fixpoint dropna (s : list float) : list Q :=
  match s with
  | [] => []
  | Some x :: s' => x :: dropna s'
  | None :: s' => dropna s'
  end.

Definition Qsum (l : list Q) : Q := fold_right Qplus 0 l.

(** [mean()]: the sum of the non-null entries over their number, NaN when
    there is none. *)
Definition mean (s : list float) : float :=
  match dropna s with
  | [] => None
  | x :: l => Some (Qsum (x :: l) / inject_Z (Z.of_nat (List.length (x :: l))))
  end.

(** [count()]: the number of non-null entries. *)
Definition count {A : Type} (s : list (option A)) : nat :=
  List.length (filter (fun c => match c with Some _ => true | None => false end) s).

(** [Series.round(0)]: round half to even. *)
Definition round_half_even (q : Q) : Z :=
  let f := Qfloor q in
  match Qcompare (q - inject_Z f) (1 # 2) with
  | Lt => f
  | Gt => (f + 1)%Z
  | Eq => if Z.even f then f else (f + 1)%Z
  end.

Definition round0 (a : float) : float :=
  match a with
  | Some x => Some (inject_Z (round_half_even x))
  | None => None
  end.

(** *** Cells, rows and frames *)

(** A cell of a frame read from a CSV file: missing, a number or text. *)
Inductive Cell : Type :=
| NaN
| Num (q : Q)
| Str (s : string).

Definition notna (c : Cell) : bool :=
  match c with
  | NaN => false
  | _ => true
  end.

(** The numeric reading of a cell of a numeric column. *)
Definition to_float (c : Cell) : float :=
  match c with
  | Num q => Some q
  | _ => None
  end.

Definition is_text (c : Cell) : bool :=
  match c with
  | Str _ => true
  | _ => false
  end.

(** The order in which group keys are sorted: numbers, then text, a missing
    value last. *)
Definition cell_compare (a b : Cell) : comparison :=
  match a, b with
  | Num x, Num y => Qcompare x y
  | Num _, _ => Lt
  | Str _, Num _ => Gt
  | Str s, Str t => String.compare s t
  | Str _, NaN => Lt
  | NaN, NaN => Eq
  | NaN, _ => Gt
  end.

Definition Row : Type := list (string * Cell).

Record DataFrame : Type := mkDataFrame {
  columns : list string;
  rows : list Row
}.

(** [row[c]]: the cell of column [c], missing when the row has none. *)
Definition get (r : Row) (c : string) : Cell :=
  match find (fun p => String.eqb (fst p) c) r with
  | Some p => snd p
  | None => NaN
  end.

Definition has_column (cols : list string) (c : string) : bool :=
  existsb (String.eqb c) cols.

(** *** Sorted distinct values *)

Section Unique.

Context {A : Type} (cmp : A -> A -> comparison).

(** Insertion into a sorted list without repetition; of two equal values
    the one met first stays. *)
Fixpoint insert_uniq (k : A) (l : list A) : list A :=
  match l with
  | [] => [k]
  | x :: l' =>
      match cmp k x with
      | Lt => k :: x :: l'
      | Eq => x :: l'
      | Gt => x :: insert_uniq k l'
      end
  end.

Definition sorted_unique (l : list A) : list A :=
  fold_left (fun acc k => insert_uniq k acc) l [].

End Unique.

(** The keys of [groupby(...)]: the distinct non-null values of the key
    column, sorted ([sort=True], [dropna=True]). *)
Definition group_keys (key : list Cell) : list Cell :=
  sorted_unique cell_compare (filter notna key).

Definition same_key (k c : Cell) : bool :=
  match cell_compare c k with
  | Eq => true
  | _ => false
  end.

(** *** Exceptions *)

Inductive exn : Type :=
| KeyError (what : string)
| TypeError (what : string).

Inductive result (A : Type) : Type :=
| Ok (a : A)
| Raise (e : exn).

Arguments Ok {A} a.
Arguments Raise {A} e.

Definition bind {A B : Type} (m : result A) (k : A -> result B) : result B :=
  match m with
  | Ok a => k a
  | Raise e => Raise e
  end.

(** *** Streamlit: what a run of a page script comes to *)

Inductive Message : Type :=
| st_error (text : string)
| st_warning (text : string).

Inductive Outcome (A : Type) : Type :=
| Rendered (a : A)            (* the script reached its charts *)
| Stopped (m : Message)       (* a message, then [st.stop()] *)
| Uncaught (e : exn).         (* an exception nobody handles *)

Arguments Rendered {A} a.
Arguments Stopped {A} m.
Arguments Uncaught {A} e.

End Pandas.

Import Pandas.

Notation "x <- m ;; k" := (bind m (fun x => k))
  (at level 61, m at next level, right associativity).

Local Open Scope string_scope.

(** ** The job-roles comparison page *)

Module JobRoles.

Definition DATA_FILE : string := "database_ai_job_final.csv".

(** *** 3. Metric configuration *)

Record MetricConfig : Type := mkMetric {
  column : option string;
  agg : string;
  color : string
}.

Definition METRICS_CONFIG : list (string * MetricConfig) :=
  [ ("Average Salary (USD)", mkMetric (Some "salary_usd") "mean" "#F1C40F");
    ("Job Count", mkMetric None "size" "#E377C2");
    ("Years of Experience", mkMetric (Some "years_experience") "mean" "#8172B2");
    ("Benefits Score", mkMetric (Some "benefits_score") "mean" "#8D6E63");
    ("Remote Work Ratio (%)", mkMetric (Some "remote_ratio") "mean" "#D95F02") ].

(** The column name variation: when the frame has a column
    "Remote Work Ratio (%)" and no column "remote_ratio", that metric reads
    the former. *)
Definition metrics_config (df : DataFrame) : list (string * MetricConfig) :=
  if has_column (columns df) "Remote Work Ratio (%)"
     && negb (has_column (columns df) "remote_ratio")
  then
    map (fun entry : string * MetricConfig =>
           if String.eqb (fst entry) "Remote Work Ratio (%)"
           then (fst entry,
                 mkMetric (Some "Remote Work Ratio (%)")
                          (agg (snd entry)) (color (snd entry)))
           else entry)
        METRICS_CONFIG
  else METRICS_CONFIG.

(** *** 4. Controls: one checkbox per metric *)

Definition all_metrics (config : list (string * MetricConfig)) : list string :=
  map fst config.

Definition selected_metrics (config : list (string * MetricConfig))
    (checkbox : string -> bool) : list string :=
  filter checkbox (all_metrics config).

(** *** 5.1 Aggregation *)

Definition key_column (df : DataFrame) (key : string) : list Cell :=
  map (fun r => get r key) (rows df).

Definition group_rows (df : DataFrame) (key : string) (k : Cell) : list Row :=
  filter (fun r => same_key k (get r key)) (rows df).

(** [df.groupby(key)]: a [KeyError] when the frame has no such column,
    else the groups in key order, each with its rows. *)
Definition groupby (df : DataFrame) (key : string)
    : result (list (Cell * list Row)) :=
  if has_column (columns df) key then
    Ok (map (fun k => (k, group_rows df key k)) (group_keys (key_column df key)))
  else Raise (KeyError key).

(** [grouped[col_name]]: a [KeyError] when the frame has no such column. *)
Definition select_column (df : DataFrame) (col_name : option string)
    : result string :=
  match col_name with
  | Some c =>
      if has_column (columns df) c then Ok c
      else Raise (KeyError ("Column not found: " ++ c))
  | None => Raise (KeyError "Column not found: None")
  end.

Definition of_nat (n : nat) : float := Some (inject_Z (Z.of_nat n)).

(** The three branches on [agg_func]; [temp_df] has one row per group, the
    key and [raw_value].  The mean of a column that holds text raises. *)
Definition aggregation (df : DataFrame) (col_name : option string)
    (agg_func : string) : result (list (Cell * float)) :=
  groups <- groupby df "job_title" ;;
  if String.eqb agg_func "size" then
    Ok (map (fun g : Cell * list Row => (fst g, of_nat (List.length (snd g))))
            groups)
  else if String.eqb agg_func "nunique" then
    c <- select_column df col_name ;;
    Ok (map (fun g : Cell * list Row =>
               (fst g,
                of_nat (List.length
                          (group_keys (map (fun r => get r c) (snd g))))))
            groups)
  else
    c <- select_column df col_name ;;
    if existsb (fun r => is_text (get r c)) (rows df) then
      Raise (TypeError "agg function failed [how->mean,dtype->object]")
    else
      Ok (map (fun g : Cell * list Row =>
                 (fst g, mean (map (fun r => to_float (get r c)) (snd g))))
              groups).

(** *** 5.2 Normalization *)

Record PlotRow : Type := mkPlotRow {
  job_title : Cell;
  raw_value : float;
  normalized_value : float;
  metric : string
}.

(** Minimal visible height to allow hover on zero values. *)
Definition epsilon : Q := 0.02%Q.

(** The value of [normalized_value] before the clip: [1.0] for the whole
    column when [max_val - min_val == 0], else the min-max scaling. *)
Definition min_max_scaling (min_val max_val raw : float) : float :=
  if feq0 (fsub max_val min_val) then Some 1%Q
  else fdiv (fsub raw min_val) (fsub max_val min_val).

Definition normalization (name : string) (temp_df : list (Cell * float))
    : list PlotRow :=
  let min_val := series_min (map snd temp_df) in
  let max_val := series_max (map snd temp_df) in
  map (fun t : Cell * float =>
         mkPlotRow (fst t) (snd t)
                   (clip_lower epsilon (min_max_scaling min_val max_val (snd t)))
                   name)
      temp_df.

(** *** The loop over the selected metrics and the page *)

Definition lookup_config (config : list (string * MetricConfig))
    (name : string) : result MetricConfig :=
  match find (fun entry => String.eqb (fst entry) name) config with
  | Some entry => Ok (snd entry)
  | None => Raise (KeyError name)
  end.

Definition metric_frame (df : DataFrame)
    (config : list (string * MetricConfig)) (name : string)
    : result (list PlotRow) :=
  cfg <- lookup_config config name ;;
  temp_df <- aggregation df (column cfg) (agg cfg) ;;
  Ok (normalization name temp_df).

Fixpoint plot_data (df : DataFrame) (config : list (string * MetricConfig))
    (selected : list string) : result (list (list PlotRow)) :=
  match selected with
  | [] => Ok []
  | name :: rest =>
      temp_df <- metric_frame df config name ;;
      frames <- plot_data df config rest ;;
      Ok (temp_df :: frames)
  end.

(** The script down to [plot_df]: [loaded] is what [load_data] returned and
    [checkbox] the state of the metric checkboxes. *)
Definition page (loaded : option DataFrame) (checkbox : string -> bool)
    : Outcome (list PlotRow) :=
  match loaded with
  | None =>
      Stopped (st_error ("File '" ++ DATA_FILE ++
        "' not found. Please ensure the file is in the root directory."))
  | Some df =>
      let config := metrics_config df in
      match selected_metrics config checkbox with
      | [] =>
          Stopped (st_warning
            "⚠️ Please select at least one metric to visualize.")
      | selected =>
          match plot_data df config selected with
          | Ok frames => Rendered (List.concat frames)
          | Raise e => Uncaught e
          end
      end
  end.

(** *** 7. The table of raw values *)

(** What [plot_df.pivot(index="job_title", columns="metric",
    values="raw_value")] comes to: the sorted distinct metrics as columns
    and one line per sorted distinct job title, or the [ValueError] of a
    frame that has two rows for one (job title, metric) pair. *)
Inductive Pivot : Type :=
| Pivoted (cols : list string) (lines : list (Cell * list float))
| ValueError (what : string).

Definition same_entry (a b : PlotRow) : bool :=
  same_key (job_title a) (job_title b) && String.eqb (metric a) (metric b).

Fixpoint duplicated (l : list PlotRow) : bool :=
  match l with
  | [] => false
  | r :: l' => existsb (same_entry r) l' || duplicated l'
  end.

(** The cell of line [k] under column [m]: the raw value of the row of that
    pair, missing when there is no such row. *)
Definition entry (plot_df : list PlotRow) (k : Cell) (m : string) : float :=
  match find (fun r => same_key k (job_title r) && String.eqb m (metric r))
             plot_df with
  | Some r => raw_value r
  | None => None
  end.

Definition pivot (plot_df : list PlotRow) : Pivot :=
  if duplicated plot_df then
    ValueError "Index contains duplicate entries, cannot reshape"
  else
    let cols := sorted_unique String.compare (map metric plot_df) in
    Pivoted cols
      (map (fun k => (k, map (entry plot_df k) cols))
           (sorted_unique cell_compare (map job_title plot_df))).

End JobRoles.

(** ** The skills landscape page *)

Module SkillWars.

(** *** What both copies of the page share *)

(** The renaming of four skills ([Series.replace] with a dict). *)
Definition replace (skill : string) : string :=
  if String.eqb skill "Data Visualization" then "Data Viz"
  else if String.eqb skill "Machine Learning" then "ML"
  else if String.eqb skill "Natural Language Processing" then "NLP"
  else if String.eqb skill "Computer Vision" then "CV"
  else skill.

(** A row of [skill_stats] after [groupby(...).agg(...).reset_index()]. *)
Record Stat : Type := mkStat {
  skills_list : string;
  Average_Salary : float;
  Job_Count : nat
}.

(** A row of [skill_stats] with the columns [Score] and [Label]. *)
Record Labeled : Type := mkLabeled {
  stat : Stat;
  Score : float;
  Label : string
}.

(** The keys of [groupby('skills_list')]: the distinct non-null skills,
    sorted. *)
Fixpoint notnull {A : Type} (s : list (option A)) : list A :=
  match s with
  | [] => []
  | Some x :: s' => x :: notnull s'
  | None :: s' => notnull s'
  end.

Definition skill_keys (skills : list (option string)) : list string :=
  sorted_unique String.compare (notnull skills).

Definition has_skill (k : string) (skill : option string) : bool :=
  match skill with
  | Some s => String.eqb s k
  | None => false
  end.

(** [skill_stats[skill_stats['Job_Count'] >= 10]] *)
Definition enough_postings (stats : list Stat) : list Stat :=
  filter (fun s => (10 <=? Job_Count s)%nat) stats.

(** [skill_stats['Average_Salary'].round(0)] *)
Definition round_salary (stats : list Stat) : list Stat :=
  map (fun s => mkStat (skills_list s) (round0 (Average_Salary s)) (Job_Count s))
      stats.

Definition of_nat (n : nat) : float := Some (inject_Z (Z.of_nat n)).

Definition num_labels : nat := 30.

(** The [Score] of a row, given the two column maxima (taken not to be
    zero, see [fdiv]). *)
Definition score (salary_max count_max : float) (s : Stat) : float :=
  fadd (fdiv (Average_Salary s) salary_max)
       (fdiv (of_nat (Job_Count s)) count_max).

Definition with_score (stats : list Stat) : list (Stat * float) :=
  let salary_max := series_max (map Average_Salary stats) in
  let count_max := series_max (map (fun s => of_nat (Job_Count s)) stats) in
  map (fun s => (s, score salary_max count_max s)) stats.

(** [a] is strictly above [b] in a descending order of scores where NaN is
    last. *)
Definition above (a b : float) : bool :=
  match a, b with
  | Some x, Some y => negb (Qle_bool x y)
  | Some _, None => true
  | None, _ => false
  end.

(** Stable descending sort on the score: a row goes before the first row
    that is not strictly above it. *)
Fixpoint insert_desc (r : Stat * float) (l : list (Stat * float))
    : list (Stat * float) :=
  match l with
  | [] => [r]
  | x :: l' =>
      if above (snd x) (snd r) then x :: insert_desc r l' else r :: x :: l'
  end.

Definition sort_desc (l : list (Stat * float)) : list (Stat * float) :=
  fold_right insert_desc [] l.

(** [nlargest(n, 'Score')] with [keep='first']: the first [n] rows in
    descending order of [Score], ties in the order of the frame, rows
    without a score last. *)
Definition nlargest (n : nat) (l : list (Stat * float)) : list (Stat * float) :=
  firstn n (sort_desc l).

Definition top_skills (n : nat) (scored : list (Stat * float)) : list string :=
  map (fun r => skills_list (fst r)) (nlargest n scored).

(** The label logic with [n] labels: the columns [Score] and [Label]. *)
Definition label_logic (n : nat) (stats : list Stat) : list Labeled :=
  let scored := with_score stats in
  let top := top_skills n scored in
  map (fun r : Stat * float =>
         mkLabeled (fst r) (snd r)
           (let x := skills_list (fst r) in
            if existsb (String.eqb x) top then x else ""))
      scored.

(** [x] comes before [y] in [l]: some cut of [l] has [x] on its left and
    [y] on its right. *)
Definition precedes {A : Type} (l : list A) (x y : A) : Prop :=
  exists l1 l2 : list A, l = (l1 ++ l2)%list /\ In x l1 /\ In y l2.

(** The experience levels kept: all of them when "All Levels" is checked,
    else the checked ones. *)
Definition final_selection (all_levels : list string) (check_all : bool)
    (checkbox : string -> bool) : list string :=
  if check_all then all_levels else filter checkbox all_levels.

Definition isin (selection : list string) (level : option string) : bool :=
  match level with
  | Some l => existsb (String.eqb l) selection
  | None => false
  end.

(** *** The page under src/pages: the frame is exploded when loaded *)

Module App.

(** A row of the frame [load_data] returns: one posting and one of its
    skills, trimmed and not empty; the salary made numeric. *)
Record Posting : Type := mkPosting {
  experience_level : option string;
  skill : string;
  salary_usd : float
}.

Record Frame : Type := mkFrame {
  columns : list string;
  rows : list Posting
}.

Definition all_levels (df : Frame) : list string :=
  if has_column (columns df) "experience_level" then
    sorted_unique String.compare (notnull (map experience_level (rows df)))
  else [].

(** [groupby('skills_list').agg(...)]: the mean of [salary_usd] and the
    count of its non-null values. *)
Definition aggregate (filtered_df : list Posting) : list Stat :=
  map (fun k =>
         let group := filter (fun p => String.eqb (skill p) k) filtered_df in
         mkStat k (mean (map salary_usd group)) (count (map salary_usd group)))
      (skill_keys (map (fun p => Some (skill p)) filtered_df)).

(** [main] down to the label logic. *)
Definition main (df : Frame) (check_all : bool) (checkbox : string -> bool)
    : Outcome (list Labeled) :=
  match final_selection (all_levels df) check_all checkbox with
  | [] => Stopped (st_warning "Please select at least one experience level.")
  | selection =>
      let filtered_df :=
        filter (fun p => isin selection (experience_level p)) (rows df) in
      let filtered_df :=
        map (fun p => mkPosting (experience_level p) (replace (skill p))
                                (salary_usd p))
            filtered_df in
      if has_column (columns df) "salary_usd" then
        match round_salary (enough_postings (aggregate filtered_df)) with
        | [] =>
            Stopped (st_warning
              "Not enough data to display (need at least 10 job postings per skill).")
        | skill_stats => Rendered (label_logic num_labels skill_stats)
        end
      else Uncaught (KeyError "Column(s) ['salary_usd'] do not exist")
  end.

End App.

(** *** The copy under Data-Visualization---ProjectStreamlit: exploded in
    [main] *)

Module Streamlit.

(** A row of the frame read from the CSV file.  The page sorts the distinct
    values of [experience_level] as they are, so the column is taken to hold
    no missing value. *)
Record Posting : Type := mkPosting {
  job_id : option string;
  experience_level : string;
  required_skills : option string;
  salary_usd : float
}.

(** [str.split(', ')] *)
Fixpoint split (cur s : string) : list string :=
  match s with
  | EmptyString => [cur]
  | String "," (String " " rest) => cur :: split "" rest
  | String c rest => split (cur ++ String c "") rest
  end.

(** A row of [df_exploded]: the posting and one entry of its skill list,
    missing when [required_skills] is. *)
Definition explode (p : Posting) : list (Posting * option string) :=
  match required_skills p with
  | Some s => map (fun k => (p, Some k)) (split "" s)
  | None => [(p, None)]
  end.

Definition all_levels (df : list Posting) : list string :=
  sorted_unique String.compare (map experience_level df).

(** [groupby('skills_list').agg(...)]: the mean of [salary_usd] and the
    count of the non-null [job_id]. *)
Definition aggregate (df_exploded : list (Posting * option string))
    : list Stat :=
  map (fun k =>
         let group := filter (fun r => has_skill k (snd r)) df_exploded in
         mkStat k (mean (map (fun r => salary_usd (fst r)) group))
                  (count (map (fun r => job_id (fst r)) group)))
      (skill_keys (map snd df_exploded)).

(** [main] down to the label logic. *)
Definition main (df : list Posting) (check_all : bool)
    (checkbox : string -> bool) : Outcome (list Labeled) :=
  match final_selection (all_levels df) check_all checkbox with
  | [] => Stopped (st_warning "Please select at least one experience level.")
  | selection =>
      let filtered_df :=
        filter (fun p => isin selection (Some (experience_level p))) df in
      let df_exploded := flat_map explode filtered_df in
      let df_exploded :=
        map (fun r : Posting * option string =>
               (fst r, option_map replace (snd r)))
            df_exploded in
      let skill_stats := round_salary (enough_postings (aggregate df_exploded)) in
      Rendered (label_logic num_labels skill_stats)
  end.

End Streamlit.

(** *** The view scenario and the position of the labels (both copies) *)

(** [needle in s] on strings. *)
Fixpoint contains (needle s : string) : bool :=
  String.prefix needle s
  || match s with
     | EmptyString => false
     | String _ s' => contains needle s'
     end.

(** [set(a) == set(b)] *)
Definition same_set (a b : list string) : bool :=
  forallb (fun x => existsb (String.eqb x) b) a
  && forallb (fun x => existsb (String.eqb x) a) b.

Definition current_scenario (all_levels selection : list string) : string :=
  if same_set selection all_levels then "ALL"
  else
    match selection with
    | [level_code] =>
        if contains "SE" level_code then "SE"
        else if contains "MI" level_code then "MI"
        else if contains "EX" level_code then "EX"
        else if contains "EN" level_code then "EN"
        else "OTHER"
    | _ => "OTHER"
    end.

(** Ascending sort of the job counts. *)
Fixpoint insert_count (c : nat) (l : list nat) : list nat :=
  match l with
  | [] => [c]
  | x :: l' => if (c <=? x)%nat then c :: x :: l' else x :: insert_count c l'
  end.

Definition sort_counts (l : list nat) : list nat := fold_right insert_count [] l.

(** [Series.median()] of a column of counts: the middle value of the sorted
    column, the mean of the two middle values when their number is even,
    NaN for an empty column. *)
Definition median (l : list nat) : float :=
  let s := sort_counts l in
  let n := List.length s in
  match n with
  | O => None
  | _ =>
      if Nat.even n then
        Some ((inject_Z (Z.of_nat (nth (n / 2 - 1) s O))
               + inject_Z (Z.of_nat (nth (n / 2) s O))) / 2)%Q
      else Some (inject_Z (Z.of_nat (nth (n / 2) s O)))
  end.

(** [a > b] on floats: a comparison with NaN is [False]. *)
Definition fgt (a b : float) : bool :=
  match a, b with
  | Some x, Some y => negb (Qle_bool x y)
  | _, _ => false
  end.

Definition get_text_position (scenario : string) (median_count : float)
    (row : Stat) : string :=
  let skill_name := skills_list row in
  let general :=
    if contains "Spark" skill_name then "middle left"
    else if contains "Data Viz" skill_name then "middle right"
    else if fgt (of_nat (Job_Count row)) median_count then "middle left"
    else "middle right" in
  if String.eqb scenario "ALL" then
    if contains "Deep Learning" skill_name then "middle left"
    else if contains "Hadoop" skill_name then "middle right"
    else if contains "Mathematics" skill_name then "bottom center"
    else if contains "GCP" skill_name then "top center"
    else general
  else if String.eqb scenario "SE" then
    if contains "Deep Learning" skill_name then "top center"
    else if contains "Tableau" skill_name then "middle left"
    else general
  else if String.eqb scenario "MI" then
    if contains "MLO" skill_name then "middle left"
    else if contains "Azure" skill_name then "middle left"
    else if contains "Tableau" skill_name then "middle right"
    else general
  else if String.eqb scenario "EX" then
    if contains "Mathematics" skill_name then "top center"
    else if contains "Docker" skill_name then "top center"
    else if contains "Hadoop" skill_name then "middle right"
    else if contains "Tableau" skill_name then "middle left"
    else if contains "GCP" skill_name then "middle right"
    else if contains "Data Viz" skill_name then "bottom center"
    else if contains "Deep Learning" skill_name then "middle left"
    else if String.eqb skill_name "Java" then "middle right"
    else general
  else if String.eqb scenario "EN" then
    if contains "Git" skill_name then "middle right"
    else if contains "Tableau" skill_name then "middle right"
    else if contains "Linux" skill_name then "middle right"
    else if contains "Data Viz" skill_name then "bottom center"
    else general
  else general.

(** The column [TextPos] of a table. *)
Definition text_positions (scenario : string) (table : list Labeled)
    : list string :=
  let median_count := median (map (fun r => Job_Count (stat r)) table) in
  map (fun r => get_text_position scenario median_count (stat r)) table.

(** *** The two tables under the chart (both copies) *)

(** [skill_stats.nlargest(5, 'Average_Salary')] *)
Definition top_salaries (table : list Labeled) : list Stat :=
  map fst (nlargest 5 (map (fun r => (stat r, Average_Salary (stat r))) table)).

(** [skill_stats.nlargest(5, 'Job_Count')] *)
Definition highest_demand (table : list Labeled) : list Stat :=
  map fst
      (nlargest 5 (map (fun r => (stat r, of_nat (Job_Count (stat r)))) table)).

(** *** The skills column of the page under src/pages ([load_data]) *)

(** The regular-expression [str.replace] of the loader: square brackets
    and single quotes are removed. *)
Definition is_bracket_or_quote (c : ascii) : bool :=
  Ascii.eqb c "[" || Ascii.eqb c "]" || Ascii.eqb c "'".

Definition remove_brackets (l : list ascii) : list ascii :=
  filter (fun c => negb (is_bracket_or_quote c)) l.

(** [str.split(',')] *)
Fixpoint split_commas (l : list ascii) : list (list ascii) :=
  match l with
  | [] => [[]]
  | c :: l' =>
      if Ascii.eqb c "," then [] :: split_commas l'
      else
        match split_commas l' with
        | piece :: pieces => (c :: piece) :: pieces
        | [] => [[c]]
        end
  end.

(** The characters [str.strip()] removes, in their UTF-8 encoding: the
    ASCII ones (tab to carriage return, the four separators, the space),
    U+0085 and U+00A0 on two bytes, and on three bytes U+1680, U+2000 to
    U+200A, U+2028, U+2029, U+202F, U+205F and U+3000. *)
Definition space1 (a : ascii) : bool :=
  let n := nat_of_ascii a in
  ((9 <=? n) && (n <=? 13) || (28 <=? n) && (n <=? 32))%nat.

Definition space2 (a b : ascii) : bool :=
  let m := nat_of_ascii a in
  let n := nat_of_ascii b in
  ((m =? 194) && ((n =? 133) || (n =? 160)))%nat.

Definition space3 (a b c : ascii) : bool :=
  let m := nat_of_ascii a in
  let n := nat_of_ascii b in
  let o := nat_of_ascii c in
  ((m =? 225) && (n =? 154) && (o =? 128)
   || (m =? 226) && (n =? 128)
      && ((128 <=? o) && (o <=? 138) || (o =? 168) || (o =? 169) || (o =? 175))
   || (m =? 226) && (n =? 129) && (o =? 159)
   || (m =? 227) && (n =? 128) && (o =? 128))%nat.

(** [str.lstrip()] *)
Fixpoint lstrip (l : list ascii) : list ascii :=
  match l with
  | [] => []
  | a :: l1 =>
      if space1 a then lstrip l1
      else
        match l1 with
        | [] => l
        | b :: l2 =>
            if space2 a b then lstrip l2
            else
              match l2 with
              | [] => l
              | c :: l3 => if space3 a b c then lstrip l3 else l
              end
        end
  end.

(** [str.rstrip()], on the reversed text. *)
Fixpoint lstrip_reversed (l : list ascii) : list ascii :=
  match l with
  | [] => []
  | a :: l1 =>
      if space1 a then lstrip_reversed l1
      else
        match l1 with
        | [] => l
        | b :: l2 =>
            if space2 b a then lstrip_reversed l2
            else
              match l2 with
              | [] => l
              | c :: l3 => if space3 c b a then lstrip_reversed l3 else l
              end
        end
  end.

Definition rstrip (l : list ascii) : list ascii := rev (lstrip_reversed (rev l)).

Definition strip (s : string) : string :=
  string_of_list_ascii (rstrip (lstrip (list_ascii_of_string s))).

(** The entries of [skills_list] that one value of [required_skills] gives:
    cleaned, split, trimmed, the empty ones dropped. *)
Definition skills_of (required_skills : string) : list string :=
  filter (fun skill => negb (String.eqb skill ""))
         (map (fun piece => strip (string_of_list_ascii piece))
              (split_commas
                 (remove_brackets (list_ascii_of_string required_skills)))).

(** The column [skills_list] of the loaded frame, each entry with the index
    of the row of the file it comes from: rows without [required_skills]
    are dropped, the others exploded. *)
Fixpoint exploded_skills (index : nat) (required_skills : list (option string))
    : list (nat * string) :=
  match required_skills with
  | [] => []
  | None :: col => exploded_skills (S index) col
  | Some s :: col =>
      (map (fun skill => (index, skill)) (skills_of s)
       ++ exploded_skills (S index) col)%list
  end.

End SkillWars.
(** ** Sample frames and inputs *)

Module Samples.

Import JobRoles.

Local Open Scope Q_scope.

Definition posting (title : string) (salary : Cell) : Row :=
  [("job_title"%string, Str title); ("salary_usd"%string, salary)].

(** Three roles; no posting of role B states a salary. *)
Definition roles : DataFrame :=
  mkDataFrame ["job_title"; "salary_usd"]%string
    [ posting "A" (Num 100); posting "B" NaN;
      posting "A" (Num 200); posting "C" (Num 300) ].


(** A frame without the column [job_title]. *)
Definition without_job_title : DataFrame :=
  mkDataFrame ["salary_usd"]%string [ [("salary_usd"%string, Num 100)] ].

(** A frame without the column [salary_usd]. *)
Definition without_salary : DataFrame :=
  mkDataFrame ["job_title"]%string [ [("job_title"%string, Str "A")] ].

(** Checkbox states. *)
Definition only_salary (name : string) : bool :=
  String.eqb name "Average Salary (USD)".

Definition salary_and_count (name : string) : bool :=
  String.eqb name "Average Salary (USD)" || String.eqb name "Job Count".

Definition nothing_checked (name : string) : bool := false.

(** Raw values 0, 50 and 100. *)
Definition spread : list (Cell * float) :=
  [(Str "A", Some 0); (Str "B", Some 50); (Str "C", Some 100)].

(** Three skills whose scores are 1.8, 1.5 and 0.9. *)
Definition skills : list SkillWars.Stat :=
  [ SkillWars.mkStat "X" (Some 100000) 80;
    SkillWars.mkStat "Y" (Some 50000) 100;
    SkillWars.mkStat "Z" (Some 40000) 50 ].

(** Ten postings that ask for Python, three that ask for Rust. *)
Definition exploded_postings : SkillWars.App.Frame :=
  SkillWars.App.mkFrame
    ["experience_level"; "skills_list"; "salary_usd"]%string
    (repeat (SkillWars.App.mkPosting (Some "SE"%string) "Python" (Some 100000)) 10
     ++ repeat (SkillWars.App.mkPosting (Some "SE"%string) "Rust" (Some 90000)) 3).

(** Ten postings that ask for Python and SQL, three that ask for Rust. *)
Definition postings : list SkillWars.Streamlit.Posting :=
  repeat (SkillWars.Streamlit.mkPosting (Some "AI00001"%string) "SE"
            (Some "Python, SQL"%string) (Some 100000)) 10
  ++ repeat (SkillWars.Streamlit.mkPosting (Some "AI00002"%string) "SE"
               (Some "Rust"%string) (Some 90000)) 3.

Definition every_level (level : string) : bool := true.

(** A frame whose remote-work column goes by its display name. *)
Definition remote_roles : DataFrame :=
  mkDataFrame ["job_title"; "Remote Work Ratio (%)"]%string
    [ [("job_title"%string, Str "A"); ("Remote Work Ratio (%)"%string, Num 50)];
      [("job_title"%string, Str "B"); ("Remote Work Ratio (%)"%string, Num 100)] ].


Definition roles_salaries : list (Cell * float) :=
  Eval vm_compute in
    match aggregation roles (Some "salary_usd"%string) "mean" with
    | Ok temp_df => temp_df
    | Raise _ => []
    end.

Definition roles_table : list PlotRow :=
  Eval vm_compute in
    match page (Some roles) salary_and_count with
    | Rendered plot_df => plot_df
    | _ => []
    end.

Definition exploded_postings_table : list SkillWars.Labeled :=
  Eval vm_compute in
    match SkillWars.App.main exploded_postings true every_level with
    | Rendered table => table
    | _ => []
    end.

Definition postings_table : list SkillWars.Labeled :=
  Eval vm_compute in
    match SkillWars.Streamlit.main postings true every_level with
    | Rendered table => table
    | _ => []
    end.

End Samples.

Local Open Scope Q_scope.

(** ** Facts on series *)

Section SeriesFacts.

Lemma series_min_some (s : list float) (x : Q) :
  In (Some x) s -> exists m, series_min s = Some m /\ m <= x.
Proof.
  induction s as [| a s IH]; simpl; [tauto |].
  intros [-> | Hin].
  - destruct (series_min s) as [m |]; simpl.
    + exists (Qmin x m). split; [reflexivity | apply Q.le_min_l].
    + exists x. split; [reflexivity | apply Qle_refl].
  - destruct (IH Hin) as (m & Hm & Hle). rewrite Hm.
    destruct a as [y |]; simpl.
    + exists (Qmin y m). split; [reflexivity |].
      eapply Qle_trans; [apply Q.le_min_r | exact Hle].
    + exists m. split; [reflexivity | exact Hle].
Qed.

Lemma series_max_some (s : list float) (x : Q) :
  In (Some x) s -> exists m, series_max s = Some m /\ x <= m.
Proof.
  induction s as [| a s IH]; simpl; [tauto |].
  intros [-> | Hin].
  - destruct (series_max s) as [m |]; simpl.
    + exists (Qmax x m). split; [reflexivity | apply Q.le_max_l].
    + exists x. split; [reflexivity | apply Qle_refl].
  - destruct (IH Hin) as (m & Hm & Hle). rewrite Hm.
    destruct a as [y |]; simpl.
    + exists (Qmax y m). split; [reflexivity |].
      eapply Qle_trans; [exact Hle | apply Q.le_max_r].
    + exists m. split; [reflexivity | exact Hle].
Qed.

(** The minimum and the maximum, when they are numbers, are entries. *)
Lemma series_min_in (s : list float) (m : Q) :
  series_min s = Some m -> In (Some m) s.
Proof.
  revert m. induction s as [| a s IH]; simpl; [discriminate |].
  intros m. destruct a as [y |]; simpl.
  - destruct (series_min s) as [m' |]; simpl; intros [= <-].
    + unfold Qmin, GenericMinMax.gmin.
      destruct (y ?= m'); [left | left | right; apply IH]; reflexivity.
    + left; reflexivity.
  - intros H. right. apply IH. exact H.
Qed.

Lemma series_max_in (s : list float) (m : Q) :
  series_max s = Some m -> In (Some m) s.
Proof.
  revert m. induction s as [| a s IH]; simpl; [discriminate |].
  intros m. destruct a as [y |]; simpl.
  - destruct (series_max s) as [m' |]; simpl; intros [= <-].
    + unfold Qmax, GenericMinMax.gmax.
      destruct (y ?= m'); [left | right; apply IH | left]; reflexivity.
    + left; reflexivity.
  - intros H. right. apply IH. exact H.
Qed.

Lemma series_min_le_max (s : list float) (m M : Q) :
  series_min s = Some m -> series_max s = Some M -> m <= M.
Proof.
  intros Hm HM. apply series_min_in in Hm.
  destruct (series_max_some s m Hm) as (M' & HM' & Hle).
  rewrite HM in HM'. injection HM' as <-. exact Hle.
Qed.

End SeriesFacts.

(** ** Facts on the normalization *)

Section NormalizationFacts.

Import JobRoles.

Lemma in_normalization (name : string) (temp_df : list (Cell * float))
    (row : PlotRow) :
  In row (normalization name temp_df) ->
  exists g raw,
    In (g, raw) temp_df /\
    row = mkPlotRow g raw
            (clip_lower epsilon
               (min_max_scaling (series_min (map snd temp_df))
                                (series_max (map snd temp_df)) raw))
            name.
Proof.
  unfold normalization. intros H. apply in_map_iff in H.
  destruct H as ([g raw] & <- & Hin). exists g, raw. split; [exact Hin | reflexivity].
Qed.

Lemma in_raw_column (temp_df : list (Cell * float)) (g : Cell) (raw : float) :
  In (g, raw) temp_df -> In raw (map snd temp_df).
Proof. intros H. apply in_map_iff. exists (g, raw). split; [reflexivity | exact H]. Qed.

Lemma scaling_tied (m M : Q) (raw : float) :
  M == m -> min_max_scaling (Some m) (Some M) raw = Some 1.
Proof.
  intros H. unfold min_max_scaling. simpl.
  assert (E : Qeq_bool (M - m) 0 = true) by (apply Qeq_bool_iff; lra).
  rewrite E. reflexivity.
Qed.

Lemma scaling_spread (m M r : Q) :
  ~ M == m ->
  min_max_scaling (Some m) (Some M) (Some r) = Some ((r - m) / (M - m)).
Proof.
  intros H. unfold min_max_scaling. simpl.
  destruct (Qeq_bool (M - m) 0) eqn:E; [| reflexivity].
  apply Qeq_bool_iff in E. exfalso. apply H. lra.
Qed.

Lemma scaling_untied_nan (m M : Q) :
  ~ M == m -> min_max_scaling (Some m) (Some M) None = None.
Proof.
  intros H. unfold min_max_scaling. simpl.
  destruct (Qeq_bool (M - m) 0) eqn:E; [| reflexivity].
  apply Qeq_bool_iff in E. exfalso. apply H. lra.
Qed.

Lemma clip_lower_max (lo x : Q) :
  exists y, clip_lower lo (Some x) = Some y /\ y == Qmax x lo.
Proof.
  simpl. destruct (Qle_bool lo x) eqn:E.
  - exists x. split; [reflexivity |]. apply Qle_bool_iff in E.
    symmetry. apply Q.max_l. exact E.
  - exists lo. split; [reflexivity |].
    assert (x <= lo).
    { destruct (Qlt_le_dec x lo) as [Hlt | Hle]; [apply Qlt_le_weak; exact Hlt |].
      apply Qle_bool_iff in Hle. congruence. }
    symmetry. apply Q.max_r. assumption.
Qed.

Lemma scaled_le_one (m M r : Q) :
  m < M -> r <= M -> (r - m) / (M - m) <= 1.
Proof.
  intros HmM HrM. apply Qle_shift_div_r; lra.
Qed.

Lemma scaled_monotone (m M a b : Q) :
  m < M -> a <= b -> (a - m) / (M - m) <= (b - m) / (M - m).
Proof.
  intros HmM Hab. unfold Qdiv. apply Qmult_le_compat_r; [lra |].
  apply Qinv_le_0_compat. lra.
Qed.

End NormalizationFacts.

(** ** The claims on the normalization *)

Section NormalizationClaims.

Import JobRoles.


(** C2 (as the code has it).  The normalized value of every group whose raw
    value is a number is a number in the closed interval [0.02, 1.0], and so
    is every normalized value that is a number.  A group whose raw value is
    missing (NaN) gets the normalized value 1.0 when the maximum raw value
    equals the minimum, and a missing normalized value otherwise. *)
Theorem normalization_range (name : string) (temp_df : list (Cell * float))
    (row : PlotRow) :
  In row (normalization name temp_df) ->
  (forall r, raw_value row = Some r ->
             exists n, normalized_value row = Some n /\ 0.02 <= n /\ n <= 1) /\
  (forall n, normalized_value row = Some n -> 0.02 <= n /\ n <= 1) /\
  (raw_value row = None ->
   ((exists m M, series_min (map snd temp_df) = Some m /\
                 series_max (map snd temp_df) = Some M /\ M == m) ->
    normalized_value row = Some 1) /\
   (~ (exists m M, series_min (map snd temp_df) = Some m /\
                   series_max (map snd temp_df) = Some M /\ M == m) ->
    normalized_value row = None)).
Proof.
  intros Hrow.
  destruct (in_normalization _ _ _ Hrow) as (g & raw & Hin & ->). simpl.
  apply in_raw_column in Hin.
  destruct raw as [r |].
  - destruct (series_min_some _ _ Hin) as (m & Hmin & Hmr).
    destruct (series_max_some _ _ Hin) as (M & Hmax & HrM).
    rewrite Hmin, Hmax.
    assert (Hone : 0.02 <= 1 /\ 1 <= 1)
      by (split; [unfold Qle; simpl; lia | apply Qle_refl]).
    destruct (Qeq_dec M m) as [Heq | Hne].
    + rewrite (scaling_tied m M _ Heq). simpl. split; [| split].
      * intros r0 _. exists 1. split; [reflexivity | exact Hone].
      * intros n [= <-]. exact Hone.
      * discriminate.
    + rewrite (scaling_spread m M r Hne).
      assert (HmM : m < M) by lra.
      destruct (clip_lower_max epsilon ((r - m) / (M - m))) as (y & Hy & Hmaxy).
      rewrite Hy.
      assert (Hy01 : 0.02 <= y /\ y <= 1).
      { rewrite Hmaxy. split.
        - apply Q.le_max_r.
        - apply Q.max_lub; [apply scaled_le_one; assumption |].
          unfold epsilon, Qle; simpl; lia. }
      split; [| split].
      * intros r0 _. exists y. split; [reflexivity | exact Hy01].
      * intros n [= <-]. exact Hy01.
      * discriminate.
  - split; [discriminate |].
    destruct (series_min (map snd temp_df)) as [m |] eqn:Hmin;
      destruct (series_max (map snd temp_df)) as [M |] eqn:Hmax.
    + destruct (Qeq_dec M m) as [Heq | Hne].
      * rewrite (scaling_tied m M _ Heq). simpl. split.
        -- intros n [= <-]. split; [unfold Qle; simpl; lia | apply Qle_refl].
        -- intros _. split; [intros _; reflexivity |].
           intros Hnot. exfalso. apply Hnot. exists m, M. tauto.
      * rewrite (scaling_untied_nan m M Hne). simpl. split; [discriminate |].
        intros _. split; [| reflexivity].
        intros (m' & M' & [= <-] & [= <-] & Heq). contradiction.
    + simpl. split; [discriminate |]. intros _. split; [| reflexivity].
      intros (m' & M' & _ & H & _). discriminate.
    + simpl. split; [discriminate |]. intros _. split; [| reflexivity].
      intros (m' & M' & H & _). discriminate.
    + simpl. split; [discriminate |]. intros _. split; [| reflexivity].
      intros (m' & M' & H & _). discriminate.
Qed.

(** C3.  The normalization is monotonic: of two groups of one metric with
    raw values [a < b], the first has a normalized value no greater than the
    second. *)
Theorem normalization_monotonic (name : string)
    (temp_df : list (Cell * float)) (row_a row_b : PlotRow) (a b : Q) :
  In row_a (normalization name temp_df) ->
  In row_b (normalization name temp_df) ->
  raw_value row_a = Some a ->
  raw_value row_b = Some b ->
  a < b ->
  exists na nb,
    normalized_value row_a = Some na /\
    normalized_value row_b = Some nb /\
    na <= nb.
Proof.
  intros Ha Hb Hra Hrb Hab.
  destruct (in_normalization _ _ _ Ha) as (ga & raw_a & Hina & ->).
  destruct (in_normalization _ _ _ Hb) as (gb & raw_b & Hinb & ->).
  simpl in *. subst raw_a raw_b.
  apply in_raw_column in Hina. apply in_raw_column in Hinb.
  destruct (series_min_some _ _ Hina) as (m & Hmin & Hma).
  destruct (series_max_some _ _ Hinb) as (M & Hmax & HbM).
  rewrite Hmin, Hmax.
  assert (HmM : m < M) by lra.
  assert (Hne : ~ M == m) by lra.
  rewrite !(scaling_spread m M _ Hne).
  destruct (clip_lower_max epsilon ((a - m) / (M - m))) as (na & Hna & Ea).
  destruct (clip_lower_max epsilon ((b - m) / (M - m))) as (nb & Hnb & Eb).
  exists na, nb. repeat split; try assumption.
  rewrite Ea, Eb. apply Q.max_le_compat_r.
  apply scaled_monotone; [assumption | lra].
Qed.

(** C4.  When the maximum raw value exceeds the minimum, the normalized
    value of a group is [(raw - min_v) / (max_v - min_v)] floored at 0.02;
    the raw values A:0, B:50, C:100 give A:0.02, B:0.5, C:1.0. *)
Theorem normalization_min_max_floor (name : string) :
  (forall (temp_df : list (Cell * float)) (min_v max_v : Q),
      series_min (map snd temp_df) = Some min_v ->
      series_max (map snd temp_df) = Some max_v ->
      min_v < max_v ->
      forall row raw,
        In row (normalization name temp_df) ->
        raw_value row = Some raw ->
        exists n,
          normalized_value row = Some n /\
          n == Qmax ((raw - min_v) / (max_v - min_v)) 0.02) /\
  (let table :=
     normalization name
       [(Str "A", Some 0); (Str "B", Some 50); (Str "C", Some 100)] in
   map job_title table = [Str "A"; Str "B"; Str "C"] /\
   Forall2 feq (map normalized_value table) [Some 0.02; Some 0.5; Some 1]).
Proof.
  split.
  - intros temp_df min_v max_v Hmin Hmax Hlt row raw Hrow Hraw.
    destruct (in_normalization _ _ _ Hrow) as (g & raw' & _ & ->).
    simpl in *. subst raw'. rewrite Hmin, Hmax.
    assert (Hne : ~ max_v == min_v) by lra.
    rewrite (scaling_spread min_v max_v raw Hne).
    apply clip_lower_max.
  - split; [reflexivity |].
    repeat constructor; vm_compute; reflexivity.
Qed.

End NormalizationClaims.

(** ** Facts on sorted distinct values and group keys *)

Section UniqueFacts.

Context {A : Type} (cmp : A -> A -> comparison).
Hypothesis cmp_refl : forall x, cmp x x = Eq.

Lemma insert_uniq_in (k x : A) (l : list A) :
  In x (insert_uniq cmp k l) -> x = k \/ In x l.
Proof.
  induction l as [| y l IH]; simpl.
  - intros [<- | []]. left; reflexivity.
  - destruct (cmp k y); simpl.
    + intros H. right. exact H.
    + intros [<- | H]; [left; reflexivity | right; exact H].
    + intros [<- | H]; [right; left; reflexivity |].
      destruct (IH H) as [-> | H']; [left; reflexivity | right; right; exact H'].
Qed.

Lemma insert_uniq_keeps (k x : A) (l : list A) :
  In x l -> In x (insert_uniq cmp k l).
Proof.
  induction l as [| y l IH]; simpl; [tauto |].
  intros Hin. destruct (cmp k y); simpl.
  - exact Hin.
  - right. exact Hin.
  - destruct Hin as [<- | Hin]; [left; reflexivity | right; apply IH; exact Hin].
Qed.

Lemma insert_uniq_has (k : A) (l : list A) :
  exists x, In x (insert_uniq cmp k l) /\ cmp k x = Eq.
Proof.
  induction l as [| y l IH]; simpl.
  - exists k. split; [left; reflexivity | apply cmp_refl].
  - destruct (cmp k y) eqn:E; simpl.
    + exists y. split; [left; reflexivity | exact E].
    + exists k. split; [left; reflexivity | apply cmp_refl].
    + destruct IH as (x & Hin & Hx). exists x. split; [right; exact Hin | exact Hx].
Qed.

Lemma fold_insert_in (l acc : list A) (x : A) :
  In x (fold_left (fun a k => insert_uniq cmp k a) l acc) ->
  In x l \/ In x acc.
Proof.
  revert acc. induction l as [| k l IH]; simpl; intros acc H.
  - right. exact H.
  - destruct (IH _ H) as [Hl | Hacc]; [left; right; exact Hl |].
    destruct (insert_uniq_in _ _ _ Hacc) as [-> | Hin];
      [left; left; reflexivity | right; exact Hin].
Qed.

Lemma fold_insert_keeps (l acc : list A) (x : A) :
  In x acc -> In x (fold_left (fun a k => insert_uniq cmp k a) l acc).
Proof.
  revert acc. induction l as [| k l IH]; simpl; intros acc H; [exact H |].
  apply IH. apply insert_uniq_keeps. exact H.
Qed.

Lemma fold_insert_has (l acc : list A) (k : A) :
  In k l ->
  exists x, In x (fold_left (fun a k => insert_uniq cmp k a) l acc) /\
            cmp k x = Eq.
Proof.
  revert acc. induction l as [| y l IH]; simpl; intros acc; [tauto |].
  intros [-> | Hin].
  - destruct (insert_uniq_has k acc) as (x & Hx & E).
    exists x. split; [apply fold_insert_keeps; exact Hx | exact E].
  - apply IH. exact Hin.
Qed.

(** Every value has an equal representative among the sorted distinct
    values, and these are values of the list. *)
Lemma sorted_unique_complete (l : list A) (k : A) :
  In k l -> exists x, In x (sorted_unique cmp l) /\ cmp k x = Eq.
Proof. apply fold_insert_has. Qed.

Lemma sorted_unique_sound (l : list A) (x : A) :
  In x (sorted_unique cmp l) -> In x l.
Proof.
  intros H. destruct (fold_insert_in _ _ _ H) as [Hl | []]. exact Hl.
Qed.

End UniqueFacts.

Section GroupKeyFacts.

Lemma string_compare_refl (s : string) : String.compare s s = Eq.
Proof.
  pose proof (String.compare_antisym s s) as H.
  destruct (String.compare s s); simpl in H; [reflexivity | discriminate ..].
Qed.

Lemma cell_compare_refl (c : Cell) : cell_compare c c = Eq.
Proof.
  destruct c as [| q | s]; simpl.
  - reflexivity.
  - apply Qeq_alt. reflexivity.
  - apply string_compare_refl.
Qed.

(** A group key is a non-null cell of the key column. *)
Lemma group_keys_sound (cells : list Cell) (k : Cell) :
  In k (group_keys cells) -> In k cells /\ k <> NaN.
Proof.
  unfold group_keys. intros H. apply sorted_unique_sound in H.
  apply filter_In in H. destruct H as [Hin Hk]. split; [exact Hin |].
  intros ->. discriminate.
Qed.

(** Every non-null cell of the key column has its group. *)
Lemma group_keys_complete (cells : list Cell) (c : Cell) :
  In c cells -> c <> NaN ->
  exists k, In k (group_keys cells) /\ same_key k c = true.
Proof.
  intros Hin Hc. unfold group_keys, same_key.
  destruct (sorted_unique_complete cell_compare cell_compare_refl
              (filter notna cells) c) as (k & Hk & E).
  - apply filter_In. split; [exact Hin |]. destruct c; [congruence | reflexivity ..].
  - exists k. split; [exact Hk |]. rewrite E. reflexivity.
Qed.

End GroupKeyFacts.

(** ** Facts on the aggregation and on the loop over the metrics *)

Section AggregationFacts.

Import JobRoles.

Lemma groupby_ok (df : DataFrame) (key : string)
    (groups : list (Cell * list Row)) :
  groupby df key = Ok groups ->
  has_column (columns df) key = true /\
  groups = map (fun k => (k, group_rows df key k))
               (group_keys (key_column df key)).
Proof.
  unfold groupby. destruct (has_column (columns df) key); [| discriminate].
  intros [= <-]. split; reflexivity.
Qed.

Lemma groupby_missing (df : DataFrame) (key : string) :
  has_column (columns df) key = false -> groupby df key = Raise (KeyError key).
Proof. unfold groupby. intros ->. reflexivity. Qed.

Lemma map_fst_groups {B : Type} (f : Cell * list Row -> B) (df : DataFrame)
    (key : string) :
  map fst
      (map (fun g : Cell * list Row => (fst g, f g))
           (map (fun k => (k, group_rows df key k))
                (group_keys (key_column df key))))
  = group_keys (key_column df key).
Proof.
  rewrite !map_map. simpl. apply map_id.
Qed.

(** Whatever the aggregator, [temp_df] has one row per group of the frame,
    in key order. *)
Lemma aggregation_keys (df : DataFrame) (col_name : option string)
    (agg_func : string) (temp_df : list (Cell * float)) :
  aggregation df col_name agg_func = Ok temp_df ->
  map fst temp_df = group_keys (key_column df "job_title").
Proof.
  unfold aggregation.
  destruct (groupby df "job_title") as [groups | e] eqn:G; simpl; [| discriminate].
  apply groupby_ok in G. destruct G as [_ ->].
  destruct (String.eqb agg_func "size").
  - intros [= <-]. apply map_fst_groups.
  - destruct (String.eqb agg_func "nunique").
    + destruct (select_column df col_name) as [c | e]; simpl; [| discriminate].
      intros [= <-]. apply (map_fst_groups (fun g => of_nat _)).
    + destruct (select_column df col_name) as [c | e]; simpl; [| discriminate].
      destruct (existsb _ _); [discriminate |].
      intros [= <-]. apply (map_fst_groups (fun g => mean _)).
Qed.

(** The mean branch. *)
Lemma aggregation_mean (df : DataFrame) (col agg_func : string)
    (temp_df : list (Cell * float)) :
  agg_func <> "size"%string -> agg_func <> "nunique"%string ->
  aggregation df (Some col) agg_func = Ok temp_df ->
  temp_df =
    map (fun k =>
           (k, mean (map (fun r => to_float (get r col))
                         (group_rows df "job_title" k))))
        (group_keys (key_column df "job_title")).
Proof.
  intros Hsize Hnunique. unfold aggregation.
  destruct (groupby df "job_title") as [groups | e] eqn:G; simpl; [| discriminate].
  apply groupby_ok in G. destruct G as [_ ->].
  apply String.eqb_neq in Hsize. apply String.eqb_neq in Hnunique.
  rewrite Hsize, Hnunique.
  destruct (has_column (columns df) col); simpl; [| discriminate].
  destruct (existsb _ _); [discriminate |].
  intros [= <-]. rewrite map_map. reflexivity.
Qed.

Lemma mean_spec (s : list float) :
  (dropna s = [] -> mean s = None) /\
  (dropna s <> [] ->
   mean s = Some (Qsum (dropna s) / inject_Z (Z.of_nat (List.length (dropna s))))).
Proof.
  unfold mean. destruct (dropna s) as [| x l].
  - split; [reflexivity | congruence].
  - split; [discriminate | reflexivity].
Qed.

Lemma normalization_columns (name : string) (temp_df : list (Cell * float)) :
  map job_title (normalization name temp_df) = map fst temp_df /\
  map raw_value (normalization name temp_df) = map snd temp_df /\
  (forall row, In row (normalization name temp_df) -> metric row = name).
Proof.
  unfold normalization. rewrite !map_map. simpl. repeat split.
  intros row H. apply in_map_iff in H. destruct H as (t & <- & _). reflexivity.
Qed.

Lemma metric_frame_ok (df : DataFrame) (config : list (string * MetricConfig))
    (name : string) (frame : list PlotRow) :
  metric_frame df config name = Ok frame ->
  map job_title frame = group_keys (key_column df "job_title") /\
  (forall row, In row frame -> metric row = name).
Proof.
  unfold metric_frame.
  destruct (lookup_config config name) as [cfg | e]; simpl; [| discriminate].
  destruct (aggregation df (column cfg) (agg cfg)) as [temp_df | e] eqn:E;
    simpl; [| discriminate].
  intros [= <-]. apply aggregation_keys in E.
  destruct (normalization_columns name temp_df) as (H1 & _ & H3).
  split; [congruence | exact H3].
Qed.

Lemma plot_data_ok (df : DataFrame) (config : list (string * MetricConfig))
    (selected : list string) (frames : list (list PlotRow)) :
  plot_data df config selected = Ok frames ->
  Forall2 (fun name frame => metric_frame df config name = Ok frame)
          selected frames.
Proof.
  revert frames. induction selected as [| name rest IH]; simpl; intros frames.
  - intros [= <-]. constructor.
  - destruct (metric_frame df config name) as [frame | e] eqn:E; simpl;
      [| discriminate].
    destruct (plot_data df config rest) as [frames' | e]; simpl; [| discriminate].
    intros [= <-]. constructor; [exact E | apply IH; reflexivity].
Qed.

Lemma plot_data_raises (df : DataFrame) (config : list (string * MetricConfig))
    (selected : list string) (name : string) (e : exn) :
  In name selected ->
  metric_frame df config name = Raise e ->
  exists e', plot_data df config selected = Raise e'.
Proof.
  induction selected as [| n rest IH]; simpl; [tauto |].
  intros [-> | Hin] Hraise.
  - rewrite Hraise. simpl. exists e. reflexivity.
  - destruct (metric_frame df config n) as [frame | e1]; simpl;
      [| exists e1; reflexivity].
    destruct (IH Hin Hraise) as (e' & ->). simpl. exists e'. reflexivity.
Qed.

Lemma metrics_config_names (df : DataFrame) :
  all_metrics (metrics_config df) = all_metrics METRICS_CONFIG.
Proof.
  unfold metrics_config.
  destruct (has_column _ _ && negb _)%bool; reflexivity.
Qed.

Lemma all_metrics_nodup : NoDup (all_metrics METRICS_CONFIG).
Proof.
  unfold all_metrics. simpl.
  repeat constructor; simpl; intuition discriminate.
Qed.

Lemma selected_metrics_nodup (df : DataFrame) (checkbox : string -> bool) :
  NoDup (selected_metrics (metrics_config df) checkbox).
Proof.
  unfold selected_metrics. rewrite metrics_config_names.
  apply NoDup_filter. apply all_metrics_nodup.
Qed.

Lemma filter_none {B : Type} (f : B -> bool) (l : list B) :
  (forall x, In x l -> f x = false) -> filter f l = [].
Proof.
  induction l as [| x l IH]; simpl; [reflexivity |].
  intros H. rewrite (H x (or_introl eq_refl)). apply IH.
  intros y Hy. apply H. right. exact Hy.
Qed.

(** The rows of one metric in the concatenation of the frames. *)
Lemma rows_of_metric (groups : list Cell) (selected : list string)
    (frames : list (list PlotRow)) (name : string) :
  Forall2 (fun n frame =>
             map job_title frame = groups /\
             (forall row, In row frame -> metric row = n))
          selected frames ->
  NoDup selected ->
  In name selected ->
  map job_title
      (filter (fun row => String.eqb (metric row) name) (List.concat frames))
  = groups.
Proof.
  intros HF. induction HF as [| n frame sel frs [Hg Hm] HF IH]; simpl.
  - tauto.
  - intros Hnd Hin. apply NoDup_cons_iff in Hnd. destruct Hnd as [Hnotin Hnd'].
    rewrite filter_app, map_app.
    assert (Hrest : forall row, In row (List.concat frs) -> In (metric row) sel).
    { clear -HF. induction HF as [| n' f' s' fs' [_ Hm'] HF' IH']; simpl; [tauto |].
      intros row Hrow. apply in_app_or in Hrow. destruct Hrow as [Hrow | Hrow].
      - left. symmetry. apply Hm'. exact Hrow.
      - right. apply IH'. exact Hrow. }
    destruct (String.eqb_spec n name) as [-> | Hne].
    + assert (E1 : filter (fun row => String.eqb (metric row) name) frame = frame).
      { apply forallb_filter_id. apply forallb_forall. intros row Hrow.
        rewrite (Hm row Hrow). apply String.eqb_refl. }
      assert (E2 : filter (fun row => String.eqb (metric row) name)
                          (List.concat frs) = []).
      { apply filter_none. intros row Hrow.
        destruct (String.eqb_spec (metric row) name) as [Heq |]; [| reflexivity].
        exfalso. apply Hnotin. rewrite <- Heq. apply Hrest. exact Hrow. }
      rewrite E1, E2, app_nil_r. exact Hg.
    + assert (E1 : filter (fun row => String.eqb (metric row) name) frame = []).
      { apply filter_none. intros row Hrow. rewrite (Hm row Hrow).
        apply String.eqb_neq. exact Hne. }
      rewrite E1. simpl. apply IH; [exact Hnd' |].
      destruct Hin as [Heq | Hin]; [contradiction | exact Hin].
Qed.

End AggregationFacts.

(** ** The claims on the aggregation and on the comparison table *)

Section TableClaims.

Import JobRoles.

(** C5 (as the code has it).  For the mean aggregator, [temp_df] has one row
    per group of the frame; its raw value is the arithmetic mean of the
    non-null values of the source column in the group, and a group without
    any such value stays in the result with a missing raw value (NaN), so
    the normalized frame of the metric has a row for it as well. *)
Theorem mean_aggregation_keeps_every_group (df : DataFrame)
    (col agg_func name : string) (temp_df : list (Cell * float)) :
  agg_func <> "size"%string ->
  agg_func <> "nunique"%string ->
  aggregation df (Some col) agg_func = Ok temp_df ->
  map fst temp_df = group_keys (key_column df "job_title") /\
  (forall k raw,
      In (k, raw) temp_df ->
      let values :=
        dropna (map (fun r => to_float (get r col))
                    (group_rows df "job_title" k)) in
      (values = [] -> raw = None) /\
      (values <> [] ->
       raw = Some (Qsum values / inject_Z (Z.of_nat (List.length values))))) /\
  map job_title (normalization name temp_df) = map fst temp_df /\
  map raw_value (normalization name temp_df) = map snd temp_df.
Proof.
  intros Hsize Hnunique Hagg.
  pose proof (aggregation_keys _ _ _ _ Hagg) as Hkeys.
  pose proof (aggregation_mean _ _ _ _ Hsize Hnunique Hagg) as ->.
  destruct (normalization_columns name
              (map (fun k =>
                      (k, mean (map (fun r => to_float (get r col))
                                    (group_rows df "job_title" k))))
                   (group_keys (key_column df "job_title"))))
    as (H1 & H2 & _).
  repeat split; try assumption.
  - apply in_map_iff in H. destruct H as (k' & [= <- <-] & _).
    apply (proj1 (mean_spec _)).
  - apply in_map_iff in H. destruct H as (k' & [= <- <-] & _).
    apply (proj2 (mean_spec _)).
Qed.

(** C6.  In the table of a run that reaches its charts, every selected
    metric has exactly the groups of the frame, in the same order: a row for
    every (group, metric) pair, also where the raw value is missing. *)
Theorem plot_df_has_every_group_for_every_metric (df : DataFrame)
    (checkbox : string -> bool) (plot_df : list PlotRow) :
  page (Some df) checkbox = Rendered plot_df ->
  let groups := group_keys (key_column df "job_title") in
  let selected := selected_metrics (metrics_config df) checkbox in
  (forall name,
      In name selected ->
      map job_title
          (filter (fun row => String.eqb (metric row) name) plot_df) = groups) /\
  (forall name k,
      In name selected -> In k groups ->
      exists row, In row plot_df /\ metric row = name /\ job_title row = k) /\
  (forall r,
      In r (rows df) -> get r "job_title" <> NaN ->
      exists k, In k groups /\ same_key k (get r "job_title") = true) /\
  (forall k,
      In k groups -> k <> NaN /\ exists r, In r (rows df) /\ get r "job_title" = k).
Proof.
  intros Hpage groups selected.
  assert (Hrows : forall name, In name selected ->
            map job_title
                (filter (fun row => String.eqb (metric row) name) plot_df)
            = groups).
  { intros name Hin. unfold page in Hpage. fold selected in Hpage.
    destruct selected as [| n rest] eqn:Esel; [discriminate |].
    destruct (plot_data df (metrics_config df) (n :: rest)) as [frames | e] eqn:E;
      [| discriminate].
    injection Hpage as <-.
    apply rows_of_metric with (selected := n :: rest).
    - apply plot_data_ok in E.
      eapply Forall2_impl; [| exact E].
      intros a b Hab. apply (metric_frame_ok _ _ _ _ Hab).
    - rewrite <- Esel. apply selected_metrics_nodup.
    - exact Hin. }
  split; [exact Hrows |]. split; [| split].
  - intros name k Hname Hk. rewrite <- (Hrows name Hname) in Hk.
    apply in_map_iff in Hk. destruct Hk as (row & Hjob & Hrow).
    apply filter_In in Hrow. destruct Hrow as [Hrow Hm].
    exists row. repeat split; [exact Hrow | | exact Hjob].
    apply String.eqb_eq. exact Hm.
  - intros r Hr Hnotna. apply group_keys_complete; [| exact Hnotna].
    unfold key_column. apply in_map_iff. exists r. split; [reflexivity | exact Hr].
  - intros k Hk. apply group_keys_sound in Hk. destruct Hk as [Hin Hnotna].
    split; [exact Hnotna |]. unfold key_column in Hin.
    apply in_map_iff in Hin. destruct Hin as (r & Hget & Hr).
    exists r. split; assumption.
Qed.

(** C7.  With no metric selected the run reports that at least one metric
    must be selected and stops: no table, no exception. *)
Theorem no_metric_selected_stops (df : DataFrame) (checkbox : string -> bool) :
  selected_metrics (metrics_config df) checkbox = [] ->
  page (Some df) checkbox =
  Stopped (st_warning "⚠️ Please select at least one metric to visualize.").
Proof.
  intros H. unfold page. rewrite H. reflexivity.
Qed.


Lemma lookup_config_ok (config : list (string * MetricConfig)) (name : string) :
  In name (all_metrics config) ->
  exists cfg, lookup_config config name = Ok cfg.
Proof.
  unfold lookup_config, all_metrics.
  induction config as [| entry config IH]; simpl; [tauto |].
  intros [<- | Hin].
  - rewrite String.eqb_refl. eexists. reflexivity.
  - destruct (String.eqb (fst entry) name); [eexists; reflexivity |].
    apply IH. exact Hin.
Qed.

Lemma selected_in_all (config : list (string * MetricConfig))
    (checkbox : string -> bool) (name : string) :
  In name (selected_metrics config checkbox) -> In name (all_metrics config).
Proof. unfold selected_metrics. intros H. apply filter_In in H. tauto. Qed.

(** C8 (as the code has it).  The page validates no column.  When the frame
    has no column [job_title], the first [groupby] raises [KeyError] and the
    run dies of it; when a selected metric reads a column the frame lacks,
    its selection raises [KeyError] and the run dies of an exception as
    well.  Neither is reported as an error kind of its own. *)
Theorem missing_column_raises_key_error (df : DataFrame)
    (checkbox : string -> bool) :
  selected_metrics (metrics_config df) checkbox <> [] ->
  (has_column (columns df) "job_title" = false ->
   page (Some df) checkbox = Uncaught (KeyError "job_title")) /\
  (forall name cfg col,
      has_column (columns df) "job_title" = true ->
      In name (selected_metrics (metrics_config df) checkbox) ->
      lookup_config (metrics_config df) name = Ok cfg ->
      agg cfg <> "size"%string ->
      column cfg = Some col ->
      has_column (columns df) col = false ->
      metric_frame df (metrics_config df) name
      = Raise (KeyError ("Column not found: " ++ col)) /\
      exists e, page (Some df) checkbox = Uncaught e).
Proof.
  intros Hsel. split.
  - intros Hmissing. unfold page.
    destruct (selected_metrics (metrics_config df) checkbox) as [| n rest] eqn:E;
      [congruence |].
    assert (Hn : In n (all_metrics (metrics_config df))).
    { apply (selected_in_all _ checkbox). rewrite E. left. reflexivity. }
    destruct (lookup_config_ok _ _ Hn) as (cfg & Hcfg).
    simpl. unfold metric_frame. rewrite Hcfg. simpl.
    unfold aggregation. rewrite (groupby_missing _ _ Hmissing). reflexivity.
  - intros name cfg col Hjob Hin Hcfg Hagg Hcol Hmissing.
    assert (Hframe : metric_frame df (metrics_config df) name
                     = Raise (KeyError ("Column not found: " ++ col))).
    { unfold metric_frame. rewrite Hcfg. simpl. unfold aggregation, groupby.
      rewrite Hjob. simpl. apply String.eqb_neq in Hagg. rewrite Hagg, Hcol.
      simpl. rewrite Hmissing.
      destruct (String.eqb (agg cfg) "nunique"); reflexivity. }
    split; [exact Hframe |].
    destruct (plot_data_raises _ _ _ _ _ Hin Hframe) as (e & He).
    exists e. unfold page.
    destruct (selected_metrics (metrics_config df) checkbox) as [| n rest];
      [contradiction |].
    rewrite He. reflexivity.
Qed.

End TableClaims.

(** ** Facts on the descending order of scores and on [nlargest] *)

Section OrderFacts.

Import SkillWars.

Lemma above_lt (x y : Q) : above (Some x) (Some y) = true <-> y < x.
Proof.
  simpl. rewrite negb_true_iff. split.
  - intros H. apply Qnot_le_lt. intros Hle. apply Qle_bool_iff in Hle. congruence.
  - intros H. destruct (Qle_bool x y) eqn:E; [| reflexivity].
    apply Qle_bool_iff in E. lra.
Qed.

Lemma above_le (x y : Q) : above (Some x) (Some y) = false <-> x <= y.
Proof.
  simpl. rewrite negb_false_iff. apply Qle_bool_iff.
Qed.

Lemma above_asym (a b : float) : above a b = true -> above b a = false.
Proof.
  destruct a as [x |], b as [y |]; try (simpl; congruence).
  rewrite above_lt, above_le. lra.
Qed.

(** Not being above is transitive. *)
Lemma not_above_trans (a b c : float) :
  above a b = false -> above b c = false -> above a c = false.
Proof.
  destruct a as [x |], b as [y |], c as [z |]; try (simpl; congruence).
  rewrite !above_le. lra.
Qed.

Lemma precedes_cons_inv {A : Type} (a : A) (t : list A) (x y : A) :
  precedes (a :: t) x y -> (x = a /\ In y t) \/ precedes t x y.
Proof.
  intros (l1 & l2 & E & Hx & Hy).
  destruct l1 as [| b l1]; [destruct Hx |].
  injection E as <- ->.
  destruct Hx as [<- | Hx].
  - left. split; [reflexivity |]. apply in_or_app. right. exact Hy.
  - right. exists l1, l2. repeat split; assumption.
Qed.

Lemma precedes_head {A : Type} (a : A) (t : list A) (y : A) :
  In y t -> precedes (a :: t) a y.
Proof.
  intros H. exists [a], t. repeat split; [left; reflexivity | exact H].
Qed.

Lemma precedes_tail {A : Type} (a : A) (t : list A) (x y : A) :
  precedes t x y -> precedes (a :: t) x y.
Proof.
  intros (l1 & l2 & -> & Hx & Hy). exists (a :: l1), l2.
  repeat split; [right; exact Hx | exact Hy].
Qed.

Lemma precedes_in {A : Type} (l : list A) (x y : A) :
  precedes l x y -> In x l /\ In y l.
Proof.
  intros (l1 & l2 & -> & Hx & Hy).
  split; apply in_or_app; [left | right]; assumption.
Qed.

Lemma precedes_map {A B : Type} (f : A -> B) (l : list A) (x y : A) :
  precedes l x y -> precedes (map f l) (f x) (f y).
Proof.
  intros (l1 & l2 & -> & Hx & Hy). exists (map f l1), (map f l2).
  rewrite map_app. repeat split; apply in_map; assumption.
Qed.

Lemma insert_desc_perm (r : Stat * float) (l : list (Stat * float)) :
  Permutation (insert_desc r l) (r :: l).
Proof.
  induction l as [| x l IH]; simpl; [reflexivity |].
  destruct (above (snd x) (snd r)); [| reflexivity].
  rewrite IH. apply perm_swap.
Qed.

Lemma sort_desc_perm (l : list (Stat * float)) : Permutation (sort_desc l) l.
Proof.
  induction l as [| r l IH]; simpl; [reflexivity |].
  rewrite insert_desc_perm. constructor. exact IH.
Qed.

(** Where a row lands when it is inserted into a sorted list. *)
Lemma insert_desc_order (r : Stat * float) (s : list (Stat * float)) :
  (forall x y, precedes s x y -> above (snd y) (snd x) = false) ->
  forall x y,
    precedes (insert_desc r s) x y ->
    (x = r /\ In y s /\ above (snd y) (snd r) = false) \/
    (y = r /\ In x s /\ above (snd x) (snd r) = true) \/
    precedes s x y.
Proof.
  induction s as [| z s IH]; intros Hs x y H.
  - simpl in H. apply precedes_cons_inv in H.
    destruct H as [[_ []] | (l1 & l2 & E & Hx & _)].
    symmetry in E. apply app_eq_nil in E. destruct E as [-> _]. destruct Hx.
  - simpl in H. destruct (above (snd z) (snd r)) eqn:Ez.
    + apply precedes_cons_inv in H. destruct H as [[-> Hy] | H].
      * apply (Permutation_in _ (insert_desc_perm r s)) in Hy.
        destruct Hy as [<- | Hy].
        -- right. left. repeat split; [left; reflexivity | exact Ez].
        -- right. right. apply precedes_head. exact Hy.
      * assert (Hs' : forall x y, precedes s x y -> above (snd y) (snd x) = false).
        { intros a b Hab. apply Hs. apply precedes_tail. exact Hab. }
        destruct (IH Hs' x y H) as [(-> & Hy & Hab) | [(-> & Hx & Hab) | Hp]].
        -- left. repeat split; [right; exact Hy | exact Hab].
        -- right. left. repeat split; [right; exact Hx | exact Hab].
        -- right. right. apply precedes_tail. exact Hp.
    + apply precedes_cons_inv in H. destruct H as [[-> Hy] | H].
      * left. repeat split; [exact Hy |].
        destruct Hy as [<- | Hy]; [exact Ez |].
        apply not_above_trans with (b := snd z); [| exact Ez].
        apply Hs. apply precedes_head. exact Hy.
      * right. right. exact H.
Qed.

(** The sorted list is in descending order, and two rows are exchanged only
    when the later one has the strictly greater score. *)
Lemma sort_desc_order (l : list (Stat * float)) (x y : Stat * float) :
  precedes (sort_desc l) x y ->
  above (snd y) (snd x) = false /\
  (above (snd x) (snd y) = true \/ precedes l x y).
Proof.
  revert x y. induction l as [| r l IH]; intros x y H.
  - simpl in H. destruct H as (l1 & l2 & E & Hx & _).
    symmetry in E. apply app_eq_nil in E. destruct E as [-> _]. destruct Hx.
  - simpl in H. apply insert_desc_order in H.
    + destruct H as [(-> & Hy & Hab) | [(-> & Hx & Hab) | Hp]].
      * split; [exact Hab |]. right. apply precedes_head.
        apply (Permutation_in _ (sort_desc_perm l)). exact Hy.
      * split; [apply above_asym; exact Hab | left; exact Hab].
      * destruct (IH x y Hp) as [H1 H2]. split; [exact H1 |].
        destruct H2 as [H2 | H2]; [left; exact H2 | right; apply precedes_tail; exact H2].
    + intros a b Hab. apply (IH a b Hab).
Qed.

End OrderFacts.

(** ** Sorted distinct values have no repetition *)

Section UniqueNoDup.

Context {A : Type} (cmp : A -> A -> comparison).
Hypothesis cmp_refl : forall x, cmp x x = Eq.
Hypothesis cmp_antisym : forall x y, cmp x y = CompOpp (cmp y x).
Hypothesis cmp_trans :
  forall x y z, cmp x y = Lt -> cmp y z = Lt -> cmp x z = Lt.

Lemma insert_uniq_sorted (k : A) (l : list A) :
  StronglySorted (fun x y => cmp x y = Lt) l ->
  StronglySorted (fun x y => cmp x y = Lt) (insert_uniq cmp k l).
Proof.
  induction l as [| x l IH]; simpl; intros Hs.
  - repeat constructor.
  - apply StronglySorted_inv in Hs. destruct Hs as [Hl Hx].
    destruct (cmp k x) eqn:E.
    + constructor; assumption.
    + constructor; [constructor; assumption |].
      constructor; [exact E |].
      eapply Forall_impl; [| exact Hx].
      intros e He. apply cmp_trans with (y := x); assumption.
    + constructor; [apply IH; exact Hl |].
      apply Forall_forall. intros e He.
      destruct (insert_uniq_in cmp k e l He) as [-> | Hin].
      * rewrite cmp_antisym, E. reflexivity.
      * rewrite Forall_forall in Hx. apply Hx. exact Hin.
Qed.

Lemma sorted_unique_sorted (l : list A) :
  StronglySorted (fun x y => cmp x y = Lt) (sorted_unique cmp l).
Proof.
  unfold sorted_unique.
  assert (H : forall acc,
            StronglySorted (fun x y => cmp x y = Lt) acc ->
            StronglySorted (fun x y => cmp x y = Lt)
              (fold_left (fun a k => insert_uniq cmp k a) l acc)).
  { induction l as [| k l IH]; simpl; intros acc Hacc; [exact Hacc |].
    apply IH. apply insert_uniq_sorted. exact Hacc. }
  apply H. constructor.
Qed.

Lemma sorted_unique_nodup (l : list A) : NoDup (sorted_unique cmp l).
Proof.
  pose proof (sorted_unique_sorted l) as Hs.
  induction Hs as [| x s Hs IH Hx]; constructor; [| exact IH].
  intros Hin. rewrite Forall_forall in Hx. specialize (Hx x Hin).
  simpl in Hx. rewrite cmp_refl in Hx. discriminate.
Qed.

End UniqueNoDup.

Section SkillKeyFacts.

Import SkillWars.

Lemma string_compare_trans (x y z : string) :
  String.compare x y = Lt -> String.compare y z = Lt -> String.compare x z = Lt.
Proof.
  intros H1 H2. apply String_as_OT.cmp_lt.
  apply String_as_OT.lt_trans with (y := y); apply String_as_OT.cmp_lt; assumption.
Qed.

Lemma skill_keys_nodup (skills : list (option string)) : NoDup (skill_keys skills).
Proof.
  unfold skill_keys. apply sorted_unique_nodup.
  - apply string_compare_refl.
  - apply String.compare_antisym.
  - apply string_compare_trans.
Qed.

Lemma nodup_map_filter {B C : Type} (f : B -> C) (p : B -> bool) (l : list B) :
  NoDup (map f l) -> NoDup (map f (filter p l)).
Proof.
  induction l as [| x l IH]; simpl; intros H; [constructor |].
  apply NoDup_cons_iff in H. destruct H as [Hx Hl].
  destruct (p x); simpl; [| apply IH; exact Hl].
  constructor; [| apply IH; exact Hl].
  intros Hin. apply Hx. apply in_map_iff in Hin.
  destruct Hin as (y & Hy & Hin). apply filter_In in Hin.
  apply in_map_iff. exists y. tauto.
Qed.

(** The table that reaches the label logic has one row per skill. *)
Lemma prepared_nodup (stats : list Stat) :
  NoDup (map skills_list stats) ->
  NoDup (map skills_list (round_salary (enough_postings stats))).
Proof.
  intros H. unfold round_salary, enough_postings. rewrite map_map. simpl.
  apply nodup_map_filter. exact H.
Qed.

Lemma app_aggregate_nodup (filtered_df : list App.Posting) :
  NoDup (map skills_list (App.aggregate filtered_df)).
Proof.
  unfold App.aggregate. rewrite map_map. simpl. rewrite map_id.
  apply skill_keys_nodup.
Qed.

Lemma streamlit_aggregate_nodup
    (df_exploded : list (Streamlit.Posting * option string)) :
  NoDup (map skills_list (Streamlit.aggregate df_exploded)).
Proof.
  unfold Streamlit.aggregate. rewrite map_map. simpl. rewrite map_id.
  apply skill_keys_nodup.
Qed.

End SkillKeyFacts.

(** ** Facts on the label logic *)

Section LabelFacts.

Import SkillWars.

Lemma nodup_map_eq {B C : Type} (f : B -> C) (l : list B) (x y : B) :
  NoDup (map f l) -> In x l -> In y l -> f x = f y -> x = y.
Proof.
  induction l as [| a l IH]; simpl; [tauto |].
  intros H Hx Hy E. apply NoDup_cons_iff in H. destruct H as [Ha Hl].
  destruct Hx as [-> | Hx], Hy as [-> | Hy].
  - reflexivity.
  - exfalso. apply Ha. rewrite E. apply in_map. exact Hy.
  - exfalso. apply Ha. rewrite <- E. apply in_map. exact Hx.
  - apply IH; assumption.
Qed.

Lemma with_score_stats (stats : list Stat) : map fst (with_score stats) = stats.
Proof. unfold with_score. rewrite map_map. simpl. apply map_id. Qed.

Lemma with_score_names (stats : list Stat) :
  map (fun r : Stat * float => skills_list (fst r)) (with_score stats)
  = map skills_list stats.
Proof. rewrite <- (with_score_stats stats) at 2. rewrite map_map. reflexivity. Qed.

Lemma in_firstn {B : Type} (n : nat) (l : list B) (x : B) :
  In x (firstn n l) -> In x l.
Proof.
  intros H. rewrite <- (firstn_skipn n l). apply in_or_app. left. exact H.
Qed.

Lemma nlargest_in (n : nat) (scored : list (Stat * float)) (r : Stat * float) :
  In r (nlargest n scored) -> In r scored.
Proof.
  intros H. apply in_firstn in H.
  apply (Permutation_in _ (sort_desc_perm scored)). exact H.
Qed.

Section Selection.

Variable n : nat.
Variable scored : list (Stat * float).
Hypothesis names_nodup :
  NoDup (map (fun r : Stat * float => skills_list (fst r)) scored).

(** A row's skill is among the top skills exactly when the row is among the
    [n] largest. *)
Lemma in_top_skills (r : Stat * float) :
  In r scored ->
  (In (skills_list (fst r)) (top_skills n scored) <-> In r (nlargest n scored)).
Proof.
  intros Hr. unfold top_skills. split.
  - intros H. apply in_map_iff in H. destruct H as (x & E & Hx).
    assert (x = r) as <-; [| exact Hx].
    apply (nodup_map_eq (fun r : Stat * float => skills_list (fst r)) scored);
      [exact names_nodup | apply nlargest_in with (n := n); exact Hx | exact Hr | exact E].
  - intros H.
    apply (in_map (fun r : Stat * float => skills_list (fst r))) in H. exact H.
Qed.

(** A selected row and a row left out: the first is before the second in
    the sorted frame. *)
Lemma selected_precedes (r r' : Stat * float) :
  In r' scored ->
  In r (nlargest n scored) ->
  ~ In r' (nlargest n scored) ->
  precedes (sort_desc scored) r r'.
Proof.
  intros Hr' Hin Hout. exists (firstn n (sort_desc scored)), (skipn n (sort_desc scored)).
  split; [symmetry; apply firstn_skipn |]. split; [exact Hin |].
  apply (Permutation_in _ (Permutation_sym (sort_desc_perm scored))) in Hr'.
  rewrite <- (firstn_skipn n (sort_desc scored)) in Hr'.
  apply in_app_or in Hr'. destruct Hr' as [H | H]; [contradiction | exact H].
Qed.

Lemma top_skills_length :
  List.length (top_skills n scored) = Nat.min n (List.length scored).
Proof.
  unfold top_skills, nlargest. rewrite length_map, length_firstn.
  rewrite (Permutation_length (sort_desc_perm scored)). reflexivity.
Qed.

Lemma top_skills_nodup : NoDup (top_skills n scored).
Proof.
  unfold top_skills, nlargest. rewrite <- firstn_map.
  set (names := map (fun r : Stat * float => skills_list (fst r)) (sort_desc scored)).
  assert (Hn : NoDup names).
  { unfold names. eapply Permutation_NoDup; [| exact names_nodup].
    apply Permutation_map. apply Permutation_sym. apply sort_desc_perm. }
  rewrite <- (firstn_skipn n names) in Hn.
  apply NoDup_app_remove_r in Hn. exact Hn.
Qed.

End Selection.

End LabelFacts.

(** ** The claims on the skills page *)

Section SkillClaims.

Import SkillWars.

Lemma label_logic_rows (n : nat) (stats : list Stat) (row : Labeled) :
  In row (label_logic n stats) ->
  In (stat row, Score row) (with_score stats) /\
  Label row =
    (if existsb (String.eqb (skills_list (stat row)))
               (top_skills n (with_score stats))
     then skills_list (stat row) else ""%string).
Proof.
  unfold label_logic. intros H. apply in_map_iff in H.
  destruct H as ([s sc] & <- & Hin). simpl. split; [exact Hin | reflexivity].
Qed.

Lemma existsb_eqb_in (x : string) (l : list string) :
  existsb (String.eqb x) l = true <-> In x l.
Proof.
  rewrite existsb_exists. split.
  - intros (y & Hy & E). apply String.eqb_eq in E. subst. exact Hy.
  - intros H. exists x. split; [exact H | apply String.eqb_refl].
Qed.

(** C9.  The score of a skill is its salary over the largest salary plus
    its demand over the largest demand.  The label logic with [n] labels
    selects the [n] skills with the largest scores (all of them when there
    are fewer), a skill of equal score being preferred when it comes first
    in the table; the selected skills keep their name as label and every
    other skill gets the empty label.  With two labels and the scores
    X:1.8, Y:1.5, Z:0.9, the labels are X, Y and the empty label for Z.
    (The table has one row per skill, and the two maxima are not zero, so
    that the divisions are divisions of numbers by a number.) *)
Theorem label_logic_selects_top_scores (n : nat) (stats : list Stat) :
  let table := label_logic n stats in
  let top := top_skills n (with_score stats) in
  let salary_max := series_max (map Average_Salary stats) in
  let count_max := series_max (map (fun s => of_nat (Job_Count s)) stats) in
  NoDup (map skills_list stats) ->
  (forall m, salary_max = Some m -> ~ m == 0) ->
  (forall m, count_max = Some m -> ~ m == 0) ->
  map stat table = stats /\
  (forall row,
      In row table ->
      Score row = fadd (fdiv (Average_Salary (stat row)) salary_max)
                       (fdiv (of_nat (Job_Count (stat row))) count_max) /\
      (In (skills_list (stat row)) top -> Label row = skills_list (stat row)) /\
      (~ In (skills_list (stat row)) top -> Label row = ""%string)) /\
  (List.length top = Nat.min n (List.length stats) /\
   NoDup top /\
   forall k, In k top -> In k (map skills_list stats)) /\
  (forall row row',
      In row table -> In row' table ->
      In (skills_list (stat row)) top ->
      ~ In (skills_list (stat row')) top ->
      above (Score row') (Score row) = false /\
      (above (Score row) (Score row') = true \/ precedes table row row')) /\
  (map Label (label_logic 2 Samples.skills) = ["X"; "Y"; ""]%string /\
   Forall2 feq (map Score (label_logic 2 Samples.skills))
               [Some 1.8; Some 1.5; Some 0.9]).
Proof.
  intros table top salary_max count_max Hnd _ _.
  assert (Hnames : NoDup (map (fun r : Stat * float => skills_list (fst r))
                              (with_score stats))).
  { rewrite with_score_names. exact Hnd. }
  split; [| split; [| split; [| split]]].
  - unfold table, label_logic. rewrite map_map. simpl. apply with_score_stats.
  - intros row Hrow. apply label_logic_rows in Hrow. destruct Hrow as [Hin HL].
    split; [| split].
    + unfold with_score in Hin. apply in_map_iff in Hin.
      destruct Hin as (s & [= <- <-] & _). reflexivity.
    + intros Htop. rewrite HL.
      apply existsb_eqb_in in Htop. fold top. rewrite Htop. reflexivity.
    + intros Htop. rewrite HL.
      destruct (existsb _ _) eqn:E; [| reflexivity].
      exfalso. apply Htop. apply existsb_eqb_in. exact E.
  - split; [| split].
    + unfold top. rewrite top_skills_length.
      rewrite <- (with_score_stats stats) at 2. rewrite length_map. reflexivity.
    + apply top_skills_nodup. exact Hnames.
    + intros k Hk. unfold top, top_skills in Hk. apply in_map_iff in Hk.
      destruct Hk as (r & <- & Hr). apply nlargest_in in Hr.
      rewrite <- with_score_names.
      apply (in_map (fun r : Stat * float => skills_list (fst r))). exact Hr.
  - intros row row' Hrow Hrow' Hin Hout.
    destruct (label_logic_rows _ _ _ Hrow) as [Hr _].
    destruct (label_logic_rows _ _ _ Hrow') as [Hr' _].
    assert (H1 : In (stat row, Score row) (nlargest n (with_score stats))).
    { apply (in_top_skills n _ Hnames _ Hr). exact Hin. }
    assert (H2 : ~ In (stat row', Score row') (nlargest n (with_score stats))).
    { intros H. apply Hout. apply (in_top_skills n _ Hnames _ Hr'). exact H. }
    pose proof (selected_precedes n _ _ _ Hr' H1 H2) as Hp.
    apply sort_desc_order in Hp. simpl in Hp. destruct Hp as [Hp1 Hp2].
    split; [exact Hp1 |]. destruct Hp2 as [Hp2 | Hp2]; [left; exact Hp2 |].
    right. unfold table, label_logic in *.
    match goal with
    | |- precedes (map ?f _) _ _ => set (mk := f) in *
    end.
    apply (precedes_map mk) in Hp2.
    assert (Emk : forall r0 : Labeled,
              In r0 (map mk (with_score stats)) -> mk (stat r0, Score r0) = r0).
    { intros r0 H0. apply in_map_iff in H0.
      destruct H0 as ([s sc] & <- & _). reflexivity. }
    rewrite (Emk row Hrow), (Emk row' Hrow') in Hp2. exact Hp2.
  - split; [reflexivity |]. repeat constructor; vm_compute; reflexivity.
Qed.

Lemma prepared_counts (stats : list Stat) :
  Forall (fun s => (10 <= Job_Count s)%nat)
         (round_salary (enough_postings stats)).
Proof.
  apply Forall_forall. intros s Hs. unfold round_salary in Hs.
  apply in_map_iff in Hs. destruct Hs as (s0 & <- & H0). simpl.
  unfold enough_postings in H0. apply filter_In in H0. destruct H0 as [_ H0].
  apply Nat.leb_le. exact H0.
Qed.

Lemma label_logic_counts (n : nat) (stats : list Stat) (row : Labeled) :
  Forall (fun s => (10 <= Job_Count s)%nat) stats ->
  In row (label_logic n stats) -> (10 <= Job_Count (stat row))%nat.
Proof.
  intros Hall Hrow. rewrite Forall_forall in Hall. apply Hall.
  apply label_logic_rows in Hrow. destruct Hrow as [Hin _].
  rewrite <- (with_score_stats stats).
  apply (in_map fst) in Hin. exact Hin.
Qed.

(** C10.  In both copies of the page the table that reaches the label logic
    is the aggregated table cut down to the skills with at least ten
    postings: the score and the labels are computed from these rows only,
    and every row of the result, labeled or not, has a job count of at
    least 10, whatever the selection of experience levels. *)
Theorem every_skill_has_ten_postings :
  (forall (df : App.Frame) (check_all : bool) (checkbox : string -> bool)
          (table : list Labeled),
      App.main df check_all checkbox = Rendered table ->
      (exists stats,
          table = label_logic num_labels stats /\
          NoDup (map skills_list stats) /\
          Forall (fun s => (10 <= Job_Count s)%nat) stats) /\
      (forall row, In row table -> (10 <= Job_Count (stat row))%nat)) /\
  (forall (df : list Streamlit.Posting) (check_all : bool)
          (checkbox : string -> bool) (table : list Labeled),
      Streamlit.main df check_all checkbox = Rendered table ->
      (exists stats,
          table = label_logic num_labels stats /\
          NoDup (map skills_list stats) /\
          Forall (fun s => (10 <= Job_Count s)%nat) stats) /\
      (forall row, In row table -> (10 <= Job_Count (stat row))%nat)).
Proof.
  split.
  - intros df check_all checkbox table H. unfold App.main in H.
    destruct (final_selection _ _ _) as [| level levels]; [discriminate |].
    destruct (has_column (App.columns df) "salary_usd"); [| discriminate].
    match type of H with
    | context [App.aggregate ?f] => set (filtered_df := f) in H
    end.
    destruct (round_salary (enough_postings (App.aggregate filtered_df)))
      as [| s0 rest] eqn:E; [discriminate |].
    injection H as <-. rewrite <- E.
    assert (Hall : Forall (fun s => (10 <= Job_Count s)%nat)
                     (round_salary (enough_postings (App.aggregate filtered_df))))
      by apply prepared_counts.
    split.
    + eexists. split; [reflexivity |]. split; [| exact Hall].
      apply prepared_nodup. apply app_aggregate_nodup.
    + intros row Hrow. apply (label_logic_counts _ _ _ Hall Hrow).
  - intros df check_all checkbox table H. unfold Streamlit.main in H.
    destruct (final_selection _ _ _) as [| level levels]; [discriminate |].
    injection H as <-.
    match goal with
    | |- context [Streamlit.aggregate ?f] => set (df_exploded := f)
    end.
    assert (Hall : Forall (fun s => (10 <= Job_Count s)%nat)
                     (round_salary (enough_postings (Streamlit.aggregate df_exploded))))
      by apply prepared_counts.
    split.
    + eexists. split; [reflexivity |]. split; [| exact Hall].
      apply prepared_nodup. apply streamlit_aggregate_nodup.
    + intros row Hrow. apply (label_logic_counts _ _ _ Hall Hrow).
Qed.

End SkillClaims.

(** ** The claims at the sample inputs *)

Section Instances.

Import JobRoles.


(** C2 as the claim states it fails: role B has no salary to average, so
    its raw value is missing, and on the page its normalized value is
    missing as well: not a value of [0.02, 1.0]. *)
Lemma normalized_value_can_be_missing :
  page (Some Samples.roles) Samples.only_salary
  = Rendered (normalization "Average Salary (USD)" Samples.roles_salaries) /\
  Samples.roles_salaries <> [] /\
  In (mkPlotRow (Str "B") None None "Average Salary (USD)")
     (normalization "Average Salary (USD)" Samples.roles_salaries) /\
  ~ (forall row,
        In row (normalization "Average Salary (USD)" Samples.roles_salaries) ->
        exists n, normalized_value row = Some n /\ 0.02 <= n /\ n <= 1).
Proof.
  split; [reflexivity |]. split; [discriminate |].
  assert (Hin : In (mkPlotRow (Str "B") None None "Average Salary (USD)")
                   (normalization "Average Salary (USD)" Samples.roles_salaries))
    by (right; left; reflexivity).
  split; [exact Hin |].
  intros H. destruct (H _ Hin) as (n & Hn & _). discriminate.
Qed.

(** C2 as the code has it, at the raw values 0, 50, 100: the row of B. *)
Lemma normalization_range_witness :
  let row := mkPlotRow (Str "B") (Some 50) (Some (50 # 100)) "m" in
  In row (normalization "m" Samples.spread) /\
  (exists n, normalized_value row = Some n /\ 0.02 <= n /\ n <= 1) /\
  (0.02 <= 50 # 100 /\ 50 # 100 <= 1).
Proof.
  intros row.
  assert (Hin : In row (normalization "m" Samples.spread))
    by (right; left; reflexivity).
  split; [exact Hin |]. split.
  - exact (proj1 (normalization_range "m" Samples.spread row Hin) 50 eq_refl).
  - exact (proj1 (proj2 (normalization_range "m" Samples.spread row Hin))
                 (50 # 100) eq_refl).
Defined.

(** C3 at the raw values 0, 50, 100: the rows of A and B. *)
Lemma normalization_monotonic_witness :
  let row_a := mkPlotRow (Str "A") (Some 0) (Some 0.02) "m" in
  let row_b := mkPlotRow (Str "B") (Some 50) (Some (50 # 100)) "m" in
  In row_a (normalization "m" Samples.spread) /\
  In row_b (normalization "m" Samples.spread) /\
  0 < 50 /\
  exists na nb,
    normalized_value row_a = Some na /\
    normalized_value row_b = Some nb /\
    na <= nb.
Proof.
  intros row_a row_b.
  assert (Ha : In row_a (normalization "m" Samples.spread))
    by (left; reflexivity).
  assert (Hb : In row_b (normalization "m" Samples.spread))
    by (right; left; reflexivity).
  assert (Hlt : 0 < 50) by reflexivity.
  split; [exact Ha |]. split; [exact Hb |]. split; [exact Hlt |].
  exact (normalization_monotonic "m" Samples.spread row_a row_b 0 50
           Ha Hb eq_refl eq_refl Hlt).
Defined.

(** C4 at the raw values 0, 50, 100: the row of B. *)
Lemma normalization_min_max_floor_witness :
  let row := mkPlotRow (Str "B") (Some 50) (Some (50 # 100)) "m" in
  series_min (map snd Samples.spread) = Some 0 /\
  series_max (map snd Samples.spread) = Some 100 /\
  0 < 100 /\
  In row (normalization "m" Samples.spread) /\
  exists n,
    normalized_value row = Some n /\
    n == Qmax ((50 - 0) / (100 - 0)) 0.02.
Proof.
  intros row.
  assert (Hmin : series_min (map snd Samples.spread) = Some 0) by reflexivity.
  assert (Hmax : series_max (map snd Samples.spread) = Some 100) by reflexivity.
  assert (Hlt : 0 < 100) by reflexivity.
  assert (Hin : In row (normalization "m" Samples.spread))
    by (right; left; reflexivity).
  split; [exact Hmin |]. split; [exact Hmax |]. split; [exact Hlt |].
  split; [exact Hin |].
  exact (proj1 (normalization_min_max_floor "m") Samples.spread 0 100
               Hmin Hmax Hlt row 50 Hin eq_refl).
Defined.

(** C5 as the claim states it fails: no posting of role B states a salary,
    and role B is a row of the aggregated frame and of the table, with a
    missing raw value. *)
Lemma mean_group_without_values_is_not_excluded :
  dropna (map (fun r => to_float (get r "salary_usd"))
              (group_rows Samples.roles "job_title" (Str "B"))) = [] /\
  aggregation Samples.roles (Some "salary_usd"%string) "mean"
  = Ok Samples.roles_salaries /\
  In (Str "B", None) Samples.roles_salaries /\
  page (Some Samples.roles) Samples.only_salary
  = Rendered (normalization "Average Salary (USD)" Samples.roles_salaries) /\
  In (mkPlotRow (Str "B") None None "Average Salary (USD)")
     (normalization "Average Salary (USD)" Samples.roles_salaries) /\
  ~ (forall temp_df,
        aggregation Samples.roles (Some "salary_usd"%string) "mean" = Ok temp_df ->
        ~ In (Str "B") (map fst temp_df)).
Proof.
  split; [reflexivity |]. split; [reflexivity |].
  split; [right; left; reflexivity |]. split; [reflexivity |].
  split; [right; left; reflexivity |].
  intros H. apply (H Samples.roles_salaries eq_refl).
  right. left. reflexivity.
Qed.

(** C5 as the code has it, at the three roles. *)
Lemma mean_aggregation_keeps_every_group_witness :
  "mean"%string <> "size"%string /\
  "mean"%string <> "nunique"%string /\
  aggregation Samples.roles (Some "salary_usd"%string) "mean"
  = Ok Samples.roles_salaries /\
  map fst Samples.roles_salaries
  = group_keys (key_column Samples.roles "job_title").
Proof.
  assert (H1 : "mean"%string <> "size"%string) by discriminate.
  assert (H2 : "mean"%string <> "nunique"%string) by discriminate.
  assert (H3 : aggregation Samples.roles (Some "salary_usd"%string) "mean"
               = Ok Samples.roles_salaries) by reflexivity.
  split; [exact H1 |]. split; [exact H2 |]. split; [exact H3 |].
  exact (proj1 (mean_aggregation_keeps_every_group Samples.roles
                  "salary_usd" "mean" "Average Salary (USD)"
                  Samples.roles_salaries H1 H2 H3)).
Defined.

(** C6 at the three roles, salary and job count selected. *)
Lemma plot_df_has_every_group_for_every_metric_witness :
  page (Some Samples.roles) Samples.salary_and_count
  = Rendered Samples.roles_table /\
  In "Job Count"%string
     (selected_metrics (metrics_config Samples.roles) Samples.salary_and_count) /\
  map job_title
      (filter (fun row => String.eqb (metric row) "Job Count")
              Samples.roles_table)
  = group_keys (key_column Samples.roles "job_title").
Proof.
  assert (H1 : page (Some Samples.roles) Samples.salary_and_count
               = Rendered Samples.roles_table) by reflexivity.
  assert (H2 : In "Job Count"%string
                  (selected_metrics (metrics_config Samples.roles)
                                    Samples.salary_and_count))
    by (right; left; reflexivity).
  split; [exact H1 |]. split; [exact H2 |].
  exact (proj1 (plot_df_has_every_group_for_every_metric Samples.roles
                  Samples.salary_and_count Samples.roles_table H1)
               "Job Count"%string H2).
Defined.

(** C7 at the three roles, no box checked. *)
Lemma no_metric_selected_stops_witness :
  selected_metrics (metrics_config Samples.roles) Samples.nothing_checked = [] /\
  page (Some Samples.roles) Samples.nothing_checked =
  Stopped (st_warning "⚠️ Please select at least one metric to visualize.").
Proof.
  assert (H : selected_metrics (metrics_config Samples.roles)
                               Samples.nothing_checked = []) by reflexivity.
  split; [exact H |].
  exact (no_metric_selected_stops Samples.roles Samples.nothing_checked H).
Defined.

(** C8 as the claim states it fails: neither a frame without [job_title]
    nor a frame without [salary_usd] leads to a reported error; both runs
    end in an uncaught [KeyError]. *)
Lemma missing_columns_are_not_reported :
  page (Some Samples.without_job_title) Samples.only_salary
  = Uncaught (KeyError "job_title") /\
  page (Some Samples.without_salary) Samples.only_salary
  = Uncaught (KeyError "Column not found: salary_usd") /\
  ~ (exists m, page (Some Samples.without_job_title) Samples.only_salary
               = Stopped m) /\
  ~ (exists m, page (Some Samples.without_salary) Samples.only_salary
               = Stopped m).
Proof.
  split; [reflexivity |]. split; [reflexivity |].
  split; intros (m & H); vm_compute in H; discriminate.
Qed.

(** C8 as the code has it, at the frame without [job_title]. *)
Lemma missing_column_raises_key_error_witness :
  selected_metrics (metrics_config Samples.without_job_title)
                   Samples.only_salary <> [] /\
  has_column (columns Samples.without_job_title) "job_title" = false /\
  page (Some Samples.without_job_title) Samples.only_salary
  = Uncaught (KeyError "job_title").
Proof.
  assert (H1 : selected_metrics (metrics_config Samples.without_job_title)
                                Samples.only_salary <> []) by discriminate.
  assert (H2 : has_column (columns Samples.without_job_title) "job_title"
               = false) by reflexivity.
  split; [exact H1 |]. split; [exact H2 |].
  exact (proj1 (missing_column_raises_key_error Samples.without_job_title
                  Samples.only_salary H1) H2).
Defined.

(** C9 at the three skills, with two labels. *)
Lemma label_logic_selects_top_scores_witness :
  NoDup (map SkillWars.skills_list Samples.skills) /\
  (forall m, series_max (map SkillWars.Average_Salary Samples.skills) = Some m ->
             ~ m == 0) /\
  (forall m, series_max (map (fun s => SkillWars.of_nat (SkillWars.Job_Count s))
                             Samples.skills) = Some m ->
             ~ m == 0) /\
  map SkillWars.stat (SkillWars.label_logic 2 Samples.skills) = Samples.skills.
Proof.
  assert (H1 : NoDup (map SkillWars.skills_list Samples.skills)).
  { simpl. repeat constructor; simpl; intuition discriminate. }
  assert (H2 : forall m,
             series_max (map SkillWars.Average_Salary Samples.skills) = Some m ->
             ~ m == 0).
  { intros m [= <-]. discriminate. }
  assert (H3 : forall m,
             series_max (map (fun s => SkillWars.of_nat (SkillWars.Job_Count s))
                             Samples.skills) = Some m ->
             ~ m == 0).
  { intros m [= <-]. discriminate. }
  split; [exact H1 |]. split; [exact H2 |]. split; [exact H3 |].
  exact (proj1 (label_logic_selects_top_scores 2 Samples.skills H1 H2 H3)).
Defined.

(** C10 at the sample postings of the two copies of the page. *)
Lemma every_skill_has_ten_postings_witness :
  let python := nth 0 Samples.exploded_postings_table
                      (SkillWars.mkLabeled (SkillWars.mkStat "" None 0) None "") in
  let sql := nth 1 Samples.postings_table
                   (SkillWars.mkLabeled (SkillWars.mkStat "" None 0) None "") in
  SkillWars.App.main Samples.exploded_postings true Samples.every_level
  = Rendered Samples.exploded_postings_table /\
  In python Samples.exploded_postings_table /\
  (10 <= SkillWars.Job_Count (SkillWars.stat python))%nat /\
  SkillWars.Streamlit.main Samples.postings true Samples.every_level
  = Rendered Samples.postings_table /\
  In sql Samples.postings_table /\
  (10 <= SkillWars.Job_Count (SkillWars.stat sql))%nat.
Proof.
  intros python sql.
  assert (H1 : SkillWars.App.main Samples.exploded_postings true
                 Samples.every_level
               = Rendered Samples.exploded_postings_table)
    by (vm_compute; reflexivity).
  assert (H2 : In python Samples.exploded_postings_table)
    by (left; reflexivity).
  assert (H3 : SkillWars.Streamlit.main Samples.postings true
                 Samples.every_level
               = Rendered Samples.postings_table)
    by (vm_compute; reflexivity).
  assert (H4 : In sql Samples.postings_table) by (right; left; reflexivity).
  split; [exact H1 |]. split; [exact H2 |].
  split; [exact (proj2 (proj1 every_skill_has_ten_postings
                          Samples.exploded_postings true Samples.every_level
                          Samples.exploded_postings_table H1) python H2) |].
  split; [exact H3 |]. split; [exact H4 |].
  exact (proj2 (proj2 every_skill_has_ten_postings
                  Samples.postings true Samples.every_level
                  Samples.postings_table H3) sql H4).
Defined.

End Instances.

(** ** Further properties of the job-roles page *)

Section JobRolesProperties.

Import JobRoles.

Local Open Scope Q_scope.

Lemma group_rows_nonempty (df : DataFrame) (key : string) (k : Cell) :
  In k (group_keys (key_column df key)) ->
  (1 <= List.length (group_rows df key k))%nat.
Proof.
  intros Hk. apply group_keys_sound in Hk. destruct Hk as [Hin _].
  unfold key_column in Hin. apply in_map_iff in Hin.
  destruct Hin as (r & Hget & Hr).
  assert (Hrow : In r (group_rows df key k)).
  { unfold group_rows. apply filter_In. split; [exact Hr |].
    rewrite Hget. unfold same_key. rewrite cell_compare_refl. reflexivity. }
  destruct (group_rows df key k); [destruct Hrow | simpl; lia].
Qed.

(** The "Job Count" aggregator ignores the source column: whenever the frame
    has a column [job_title] the aggregation succeeds, whatever the column
    name, and the raw value of a group is the number of its rows, which is
    at least one and never missing. *)
Theorem size_counts_the_rows_of_each_group (df : DataFrame)
    (col_name : option string) :
  has_column (columns df) "job_title" = true ->
  aggregation df col_name "size"
  = Ok (map (fun k => (k, of_nat (List.length (group_rows df "job_title" k))))
            (group_keys (key_column df "job_title"))) /\
  (forall k, In k (group_keys (key_column df "job_title")) ->
             (1 <= List.length (group_rows df "job_title" k))%nat).
Proof.
  intros Hcol. split.
  - unfold aggregation, groupby. rewrite Hcol. simpl. rewrite map_map. reflexivity.
  - intros k Hk. apply group_rows_nonempty. exact Hk.
Qed.

Lemma size_counts_the_rows_of_each_group_witness :
  has_column (columns Samples.roles) "job_title" = true /\
  aggregation Samples.roles None "size"
  = Ok (map (fun k =>
               (k, of_nat (List.length (group_rows Samples.roles "job_title" k))))
            (group_keys (key_column Samples.roles "job_title"))).
Proof.
  assert (H : has_column (columns Samples.roles) "job_title" = true)
    by reflexivity.
  split; [exact H |].
  exact (proj1 (size_counts_the_rows_of_each_group Samples.roles None H)).
Defined.

Lemma length_concat_frames (groups : list Cell) (selected : list string)
    (frames : list (list PlotRow)) :
  Forall2 (fun n frame =>
             map job_title frame = groups /\
             (forall row, In row frame -> metric row = n))
          selected frames ->
  List.length (List.concat frames)
  = (List.length selected * List.length groups)%nat.
Proof.
  intros HF. induction HF as [| n frame sel frs [Hg _] HF IH]; simpl.
  - reflexivity.
  - rewrite length_app, IH. subst groups. rewrite length_map. reflexivity.
Qed.

(** The table of a run that reaches its charts has as many rows as there
    are selected metrics times groups of the frame. *)
Theorem plot_df_has_metrics_times_groups_rows (df : DataFrame)
    (checkbox : string -> bool) (plot_df : list PlotRow) :
  page (Some df) checkbox = Rendered plot_df ->
  List.length plot_df
  = (List.length (selected_metrics (metrics_config df) checkbox)
     * List.length (group_keys (key_column df "job_title")))%nat.
Proof.
  intros Hpage. unfold page in Hpage.
  destruct (selected_metrics (metrics_config df) checkbox) as [| n rest] eqn:Esel;
    [discriminate |].
  destruct (plot_data df (metrics_config df) (n :: rest)) as [frames | e] eqn:E;
    [| discriminate].
  injection Hpage as <-.
  apply length_concat_frames.
  apply plot_data_ok in E. eapply Forall2_impl; [| exact E].
  intros a b Hab. apply (metric_frame_ok _ _ _ _ Hab).
Qed.

Lemma plot_df_has_metrics_times_groups_rows_witness :
  page (Some Samples.roles) Samples.salary_and_count
  = Rendered Samples.roles_table /\
  List.length Samples.roles_table
  = (List.length (selected_metrics (metrics_config Samples.roles)
                                   Samples.salary_and_count)
     * List.length (group_keys (key_column Samples.roles "job_title")))%nat.
Proof.
  assert (H : page (Some Samples.roles) Samples.salary_and_count
              = Rendered Samples.roles_table) by reflexivity.
  split; [exact H |].
  exact (plot_df_has_metrics_times_groups_rows Samples.roles
           Samples.salary_and_count Samples.roles_table H).
Defined.

Lemma raw_value_has_row (name : string) (temp_df : list (Cell * float))
    (raw : float) :
  In raw (map snd temp_df) ->
  exists row, In row (normalization name temp_df) /\ raw_value row = raw.
Proof.
  intros H. apply in_map_iff in H. destruct H as ([g r] & <- & Hin).
  eexists. split.
  - unfold normalization. apply in_map_iff. exists (g, r).
    split; [reflexivity | exact Hin].
  - reflexivity.
Qed.

(** The group with the largest raw value of a metric always reads 1.0: some
    row carries the maximum, and every row whose raw value equals it has the
    normalized value 1. *)
Theorem largest_raw_value_reads_one (name : string)
    (temp_df : list (Cell * float)) (max_v : Q) :
  series_max (map snd temp_df) = Some max_v ->
  (exists row,
      In row (normalization name temp_df) /\ raw_value row = Some max_v) /\
  (forall row r,
      In row (normalization name temp_df) ->
      raw_value row = Some r -> r == max_v ->
      exists n, normalized_value row = Some n /\ n == 1).
Proof.
  intros Hmax. split.
  - apply raw_value_has_row. apply series_max_in. exact Hmax.
  - intros row r Hrow Hraw Hr.
    destruct (in_normalization _ _ _ Hrow) as (g & raw & _ & ->).
    simpl in *. subst raw. rewrite Hmax.
    pose proof (series_max_in _ _ Hmax) as Hin.
    destruct (series_min_some _ _ Hin) as (m & Hmin & HmM). rewrite Hmin.
    destruct (Qeq_dec max_v m) as [Heq | Hne].
    + rewrite (scaling_tied m max_v _ Heq). exists 1. split; reflexivity.
    + rewrite (scaling_spread m max_v r Hne).
      destruct (clip_lower_max epsilon ((r - m) / (max_v - m))) as (y & Hy & Ey).
      exists y. split; [exact Hy |]. rewrite Ey.
      assert (E1 : (r - m) / (max_v - m) == 1).
      { rewrite Hr. field. lra. }
      rewrite E1. apply Q.max_l. unfold epsilon, Qle. simpl. lia.
Qed.

Lemma largest_raw_value_reads_one_witness :
  series_max (map snd Samples.spread) = Some 100 /\
  exists row,
    In row (normalization "m" Samples.spread) /\ raw_value row = Some 100.
Proof.
  assert (H : series_max (map snd Samples.spread) = Some 100) by reflexivity.
  split; [exact H |].
  exact (proj1 (largest_raw_value_reads_one "m" Samples.spread 100 H)).
Defined.

(** When the raw values of a metric are not all equal, the group with the
    smallest one reads exactly the floor 0.02: some row carries the minimum,
    and every row whose raw value equals it has the normalized value 0.02. *)
Theorem smallest_raw_value_reads_floor (name : string)
    (temp_df : list (Cell * float)) (min_v max_v : Q) :
  series_min (map snd temp_df) = Some min_v ->
  series_max (map snd temp_df) = Some max_v ->
  min_v < max_v ->
  (exists row,
      In row (normalization name temp_df) /\ raw_value row = Some min_v) /\
  (forall row r,
      In row (normalization name temp_df) ->
      raw_value row = Some r -> r == min_v ->
      normalized_value row = Some 0.02).
Proof.
  intros Hmin Hmax Hlt. split.
  - apply raw_value_has_row. apply series_min_in. exact Hmin.
  - intros row r Hrow Hraw Hr.
    destruct (in_normalization _ _ _ Hrow) as (g & raw & _ & ->).
    simpl in *. subst raw. rewrite Hmin, Hmax.
    assert (Hne : ~ max_v == min_v) by lra.
    rewrite (scaling_spread min_v max_v r Hne). simpl.
    assert (E0 : (r - min_v) / (max_v - min_v) == 0).
    { rewrite Hr. field. lra. }
    destruct (Qle_bool epsilon ((r - min_v) / (max_v - min_v))) eqn:E;
      [| reflexivity].
    apply Qle_bool_iff in E. rewrite E0 in E.
    exfalso. revert E. unfold epsilon, Qle. simpl. lia.
Qed.

Lemma smallest_raw_value_reads_floor_witness :
  series_min (map snd Samples.spread) = Some 0 /\
  series_max (map snd Samples.spread) = Some 100 /\
  0 < 100 /\
  exists row,
    In row (normalization "m" Samples.spread) /\ raw_value row = Some 0.
Proof.
  assert (H1 : series_min (map snd Samples.spread) = Some 0) by reflexivity.
  assert (H2 : series_max (map snd Samples.spread) = Some 100) by reflexivity.
  assert (H3 : 0 < 100) by reflexivity.
  split; [exact H1 |]. split; [exact H2 |]. split; [exact H3 |].
  exact (proj1 (smallest_raw_value_reads_floor "m" Samples.spread 0 100
                  H1 H2 H3)).
Defined.

Lemma lookup_config_other (name : string) :
  name <> "Remote Work Ratio (%)"%string ->
  forall config : list (string * MetricConfig),
    lookup_config
      (map (fun entry : string * MetricConfig =>
              if String.eqb (fst entry) "Remote Work Ratio (%)"
              then (fst entry,
                    mkMetric (Some "Remote Work Ratio (%)"%string)
                             (agg (snd entry)) (color (snd entry)))
              else entry)
           config) name
    = lookup_config config name.
Proof.
  intros Hname config. unfold lookup_config.
  induction config as [| entry config IH]; simpl; [reflexivity |].
  destruct (String.eqb_spec (fst entry) "Remote Work Ratio (%)") as [E | E]; simpl.
  - rewrite E. apply String.eqb_neq in Hname. rewrite String.eqb_sym in Hname.
    rewrite Hname. exact IH.
  - destruct (String.eqb (fst entry) name); [reflexivity | exact IH].
Qed.

(** The column name variation.  On a frame that has a column
    "Remote Work Ratio (%)" and no column "remote_ratio", the remote-work
    metric is the mean of the former, so its frame is computed from that
    column and no [KeyError] on "remote_ratio" arises; every other metric
    keeps its configuration.  On any other frame the configuration is
    the static one. *)
Theorem remote_ratio_column_variation (df : DataFrame) :
  (has_column (columns df) "Remote Work Ratio (%)" = true ->
   has_column (columns df) "remote_ratio" = false ->
   metric_frame df (metrics_config df) "Remote Work Ratio (%)"
   = (temp_df <- aggregation df (Some "Remote Work Ratio (%)"%string) "mean" ;;
      Ok (normalization "Remote Work Ratio (%)" temp_df)) /\
   forall name,
     name <> "Remote Work Ratio (%)"%string ->
     lookup_config (metrics_config df) name = lookup_config METRICS_CONFIG name) /\
  (has_column (columns df) "Remote Work Ratio (%)" = false \/
   has_column (columns df) "remote_ratio" = true ->
   metrics_config df = METRICS_CONFIG).
Proof.
  split.
  - intros H1 H2. unfold metrics_config. rewrite H1, H2. simpl andb. cbv iota.
    split; [reflexivity |].
    intros name Hname. apply (lookup_config_other name Hname METRICS_CONFIG).
  - intros [H | H]; unfold metrics_config; rewrite H; simpl;
      [reflexivity | rewrite andb_false_r; reflexivity].
Qed.

(** *** The groups partition the rows *)

Lemma cell_compare_antisym (a b : Cell) :
  cell_compare a b = CompOpp (cell_compare b a).
Proof.
  destruct a as [| x | s], b as [| y | t]; simpl; try reflexivity.
  - symmetry. apply Qcompare_antisym.
  - apply String.compare_antisym.
Qed.

Lemma cell_compare_trans (a b c : Cell) :
  cell_compare a b = Lt -> cell_compare b c = Lt -> cell_compare a c = Lt.
Proof.
  destruct a as [| x | s], b as [| y | t], c as [| z | u]; simpl;
    try congruence.
  - rewrite <- !Qlt_alt. apply Qlt_trans.
  - apply string_compare_trans.
Qed.

Lemma cell_compare_eq_lt (c a b : Cell) :
  cell_compare c a = Eq -> cell_compare a b = Lt -> cell_compare c b = Lt.
Proof.
  destruct c as [| z | u], a as [| x | s], b as [| y | t]; simpl;
    try congruence.
  - rewrite <- Qeq_alt, <- !Qlt_alt. intros E H. rewrite E. exact H.
  - intros E H. apply String.compare_eq_iff in E. subst. exact H.
Qed.

Lemma group_keys_sorted (cells : list Cell) :
  StronglySorted (fun x y => cell_compare x y = Lt) (group_keys cells).
Proof.
  unfold group_keys. apply sorted_unique_sorted.
  - apply cell_compare_antisym.
  - apply cell_compare_trans.
Qed.

(** Among sorted distinct keys, exactly one equals a cell that has a
    representative, and none equals a cell that has no representative. *)
Lemma one_key_per_cell (keys : list Cell) (c : Cell) :
  StronglySorted (fun x y => cell_compare x y = Lt) keys ->
  (exists k, In k keys /\ same_key k c = true) ->
  List.length (filter (fun k => same_key k c) keys) = 1%nat.
Proof.
  intros Hs. induction Hs as [| x keys Hs IH Hx]; intros (k & Hk & E).
  - destruct Hk.
  - simpl. destruct (same_key x c) eqn:Ex.
    + simpl. f_equal. rewrite filter_none; [reflexivity |].
      intros y Hy. rewrite Forall_forall in Hx. specialize (Hx y Hy).
      unfold same_key in *. destruct (cell_compare c x) eqn:Ec; try discriminate.
      rewrite (cell_compare_eq_lt c x y Ec Hx). reflexivity.
    + apply IH. destruct Hk as [<- | Hk]; [congruence |].
      exists k. split; assumption.
Qed.

Lemma no_key_for_nan (keys : list Cell) :
  (forall k, In k keys -> k <> NaN) ->
  filter (fun k => same_key k NaN) keys = [].
Proof.
  intros H. apply filter_none. intros k Hk. specialize (H k Hk).
  unfold same_key. destruct k; [congruence | reflexivity ..].
Qed.

Lemma list_sum_cons (a : nat) (l : list nat) :
  list_sum (a :: l) = (a + list_sum l)%nat.
Proof. reflexivity. Qed.

Lemma sum_of_group_sizes (key : string) (keys : list Cell) (l : list Row) :
  StronglySorted (fun x y => cell_compare x y = Lt) keys ->
  (forall k, In k keys -> k <> NaN) ->
  (forall r, In r l -> get r key <> NaN ->
             exists k, In k keys /\ same_key k (get r key) = true) ->
  list_sum (map (fun k =>
                   List.length (filter (fun r => same_key k (get r key)) l))
                keys)
  = List.length (filter (fun r => notna (get r key)) l).
Proof.
  intros Hs Hnan. induction l as [| r l IH]; intros Hall.
  - simpl. clear. induction keys as [| k keys IHk]; [reflexivity | exact IHk].
  - assert (Hstep :
      list_sum (map (fun k =>
                       List.length
                         (filter (fun r0 => same_key k (get r0 key)) (r :: l)))
                    keys)
      = (List.length (filter (fun k => same_key k (get r key)) keys)
         + list_sum (map (fun k =>
                            List.length
                              (filter (fun r0 => same_key k (get r0 key)) l))
                         keys))%nat).
    { clear. induction keys as [| k keys IHk]; [reflexivity |].
      rewrite !map_cons, !list_sum_cons, IHk. cbn [filter].
      destruct (same_key k (get r key)); cbn [List.length]; lia. }
    rewrite Hstep, IH; [| intros r0 Hr0; apply Hall; right; exact Hr0].
    simpl. destruct (get r key) eqn:Eg.
    + simpl. rewrite (no_key_for_nan keys Hnan). reflexivity.
    + simpl. rewrite (one_key_per_cell keys _ Hs); [reflexivity |].
      rewrite <- Eg. apply Hall; [left; reflexivity | congruence].
    + simpl. rewrite (one_key_per_cell keys _ Hs); [reflexivity |].
      rewrite <- Eg. apply Hall; [left; reflexivity | congruence].
Qed.

(** Every row with a job title is counted in exactly one group: the raw
    values of the "Job Count" metric are the group sizes, and they add up to
    the number of rows of the frame whose job title is not missing. *)
Theorem job_counts_add_up_to_the_rows (df : DataFrame)
    (col_name : option string) (temp_df : list (Cell * float)) :
  aggregation df col_name "size" = Ok temp_df ->
  exists counts,
    map snd temp_df = map of_nat counts /\
    list_sum counts
    = List.length (filter (fun r => notna (get r "job_title")) (rows df)).
Proof.
  intros Hagg.
  unfold aggregation, groupby in Hagg.
  destruct (has_column (columns df) "job_title"); [| discriminate].
  simpl in Hagg. rewrite map_map in Hagg. simpl in Hagg. injection Hagg as <-.
  exists (map (fun k => List.length (group_rows df "job_title" k))
              (group_keys (key_column df "job_title"))).
  split; [rewrite !map_map; reflexivity |].
  unfold group_rows. apply sum_of_group_sizes.
  - apply group_keys_sorted.
  - intros k Hk. apply group_keys_sound in Hk. tauto.
  - intros r Hr Hnotna. apply group_keys_complete; [| exact Hnotna].
    unfold key_column. apply in_map_iff. exists r. split; [reflexivity | exact Hr].
Qed.

Lemma job_counts_add_up_to_the_rows_witness :
  aggregation Samples.roles None "size"
  = Ok [(Str "A", of_nat 2); (Str "B", of_nat 1); (Str "C", of_nat 1)] /\
  exists counts,
    map snd [(Str "A", of_nat 2); (Str "B", of_nat 1); (Str "C", of_nat 1)]
    = map of_nat counts /\
    list_sum counts
    = List.length (filter (fun r => notna (get r "job_title"))
                          (rows Samples.roles)).
Proof.
  assert (H : aggregation Samples.roles None "size"
              = Ok [(Str "A", of_nat 2); (Str "B", of_nat 1); (Str "C", of_nat 1)])
    by reflexivity.
  split; [exact H |].
  exact (job_counts_add_up_to_the_rows Samples.roles None _ H).
Defined.

Lemma remote_ratio_column_variation_witness :
  has_column (columns Samples.remote_roles) "Remote Work Ratio (%)" = true /\
  has_column (columns Samples.remote_roles) "remote_ratio" = false /\
  metric_frame Samples.remote_roles (metrics_config Samples.remote_roles)
               "Remote Work Ratio (%)"
  = (temp_df <- aggregation Samples.remote_roles
                  (Some "Remote Work Ratio (%)"%string) "mean" ;;
     Ok (normalization "Remote Work Ratio (%)" temp_df)).
Proof.
  assert (H1 : has_column (columns Samples.remote_roles)
                 "Remote Work Ratio (%)" = true) by reflexivity.
  assert (H2 : has_column (columns Samples.remote_roles) "remote_ratio"
               = false) by reflexivity.
  split; [exact H1 |]. split; [exact H2 |].
  exact (proj1 (proj1 (remote_ratio_column_variation Samples.remote_roles)
                      H1 H2)).
Defined.

End JobRolesProperties.

(** ** Sorted distinct values of sorted lists *)

Section UniqueOfSorted.

Context {A : Type} (cmp : A -> A -> comparison).
Hypothesis cmp_refl : forall x, cmp x x = Eq.
Hypothesis cmp_antisym : forall x y, cmp x y = CompOpp (cmp y x).

Lemma insert_uniq_last (k : A) (acc : list A) :
  Forall (fun x => cmp x k = Lt) acc -> insert_uniq cmp k acc = (acc ++ [k])%list.
Proof.
  induction acc as [| x acc IH]; simpl; intros H; [reflexivity |].
  apply Forall_cons_iff in H. destruct H as [Hx Hacc].
  rewrite cmp_antisym, Hx. simpl. rewrite (IH Hacc). reflexivity.
Qed.

Lemma sorted_app_lt (l1 l2 : list A) (k : A) :
  StronglySorted (fun x y => cmp x y = Lt) (l1 ++ k :: l2) ->
  Forall (fun x => cmp x k = Lt) l1.
Proof.
  induction l1 as [| x l1 IH]; simpl; intros H; [constructor |].
  apply StronglySorted_inv in H. destruct H as [Hs Hx].
  constructor; [| apply IH; exact Hs].
  rewrite Forall_forall in Hx. apply Hx. apply in_or_app. right. left. reflexivity.
Qed.

Lemma fold_insert_sorted (keys acc : list A) :
  StronglySorted (fun x y => cmp x y = Lt) (acc ++ keys) ->
  fold_left (fun a k => insert_uniq cmp k a) keys acc = (acc ++ keys)%list.
Proof.
  revert acc. induction keys as [| k keys IH]; simpl; intros acc H.
  - rewrite app_nil_r. reflexivity.
  - rewrite (insert_uniq_last k acc (sorted_app_lt _ _ _ H)).
    rewrite IH; rewrite <- app_assoc; [reflexivity | exact H].
Qed.

Lemma insert_uniq_member (k : A) (acc : list A) :
  StronglySorted (fun x y => cmp x y = Lt) acc ->
  In k acc -> insert_uniq cmp k acc = acc.
Proof.
  intros Hs. induction Hs as [| x acc Hs IH Hx]; simpl; [tauto |].
  intros [-> | Hin].
  - rewrite cmp_refl. reflexivity.
  - rewrite Forall_forall in Hx. rewrite cmp_antisym, (Hx k Hin). simpl.
    rewrite (IH Hin). reflexivity.
Qed.

Lemma fold_insert_members (l acc : list A) :
  StronglySorted (fun x y => cmp x y = Lt) acc ->
  (forall k, In k l -> In k acc) ->
  fold_left (fun a k => insert_uniq cmp k a) l acc = acc.
Proof.
  intros Hs. induction l as [| k l IH]; simpl; intros H; [reflexivity |].
  rewrite (insert_uniq_member k acc Hs (H k (or_introl eq_refl))).
  apply IH. intros k' Hk'. apply H. right. exact Hk'.
Qed.

(** The sorted distinct values of copies of a sorted list are that list. *)
Lemma sorted_unique_of_copies (keys : list A) (copies : list (list A)) :
  StronglySorted (fun x y => cmp x y = Lt) keys ->
  Forall (fun c => c = keys) copies ->
  copies <> [] ->
  sorted_unique cmp (List.concat copies) = keys.
Proof.
  intros Hs Hall Hne. destruct copies as [| c copies]; [congruence |].
  apply Forall_cons_iff in Hall. destruct Hall as [-> Hall].
  unfold sorted_unique. simpl. rewrite fold_left_app.
  rewrite (fold_insert_sorted keys []); [| exact Hs]. simpl.
  apply fold_insert_members; [exact Hs |].
  intros k Hk. apply in_concat in Hk. destruct Hk as (c & Hc & Hk).
  rewrite Forall_forall in Hall. rewrite (Hall c Hc) in Hk. exact Hk.
Qed.

End UniqueOfSorted.

(** ** The table of raw values *)

Section PivotProperties.

Import JobRoles.

Lemma same_key_sym (a b : Cell) : same_key a b = same_key b a.
Proof.
  unfold same_key. rewrite (cell_compare_antisym b a).
  destruct (cell_compare a b); reflexivity.
Qed.

Lemma same_entry_sym (a b : PlotRow) : same_entry a b = same_entry b a.
Proof.
  unfold same_entry. rewrite same_key_sym, String.eqb_sym. reflexivity.
Qed.

Lemma sorted_not_duplicated (frame : list PlotRow) :
  StronglySorted (fun x y => cell_compare x y = Lt) (map job_title frame) ->
  duplicated frame = false.
Proof.
  induction frame as [| r frame IH]; simpl; intros H; [reflexivity |].
  apply StronglySorted_inv in H. destruct H as [Hs Hr].
  rewrite (IH Hs), orb_false_r.
  destruct (existsb (same_entry r) frame) eqn:E; [| reflexivity].
  apply existsb_exists in E. destruct E as (b & Hb & Hsame).
  rewrite Forall_forall in Hr.
  specialize (Hr (job_title b) (in_map job_title _ _ Hb)).
  unfold same_entry, same_key in Hsame.
  rewrite (cell_compare_antisym (job_title b) (job_title r)), Hr in Hsame.
  discriminate.
Qed.

Lemma duplicated_app (l1 l2 : list PlotRow) :
  duplicated l1 = false ->
  duplicated l2 = false ->
  (forall a b, In a l1 -> In b l2 -> same_entry a b = false) ->
  duplicated (l1 ++ l2) = false.
Proof.
  induction l1 as [| r l1 IH]; simpl; intros H1 H2 H; [exact H2 |].
  apply orb_false_iff in H1. destruct H1 as [Hr H1].
  apply orb_false_iff. split.
  - rewrite existsb_app, Hr. simpl.
    destruct (existsb (same_entry r) l2) eqn:E; [| reflexivity].
    apply existsb_exists in E. destruct E as (b & Hb & Hsame).
    rewrite (H r b (or_introl eq_refl) Hb) in Hsame. discriminate.
  - apply IH; [exact H1 | exact H2 |].
    intros a b Ha Hb. apply H; [right; exact Ha | exact Hb].
Qed.

Lemma concat_metric_in (groups : list Cell) (selected : list string)
    (frames : list (list PlotRow)) :
  Forall2 (fun n frame =>
             map job_title frame = groups /\
             (forall row, In row frame -> metric row = n))
          selected frames ->
  forall row, In row (List.concat frames) -> In (metric row) selected.
Proof.
  intros HF. induction HF as [| n frame sel frs [_ Hm] HF IH]; simpl; [tauto |].
  intros row Hrow. apply in_app_or in Hrow. destruct Hrow as [Hrow | Hrow].
  - left. symmetry. apply Hm. exact Hrow.
  - right. apply IH. exact Hrow.
Qed.

Lemma frames_not_duplicated (groups : list Cell) (selected : list string)
    (frames : list (list PlotRow)) :
  StronglySorted (fun x y => cell_compare x y = Lt) groups ->
  Forall2 (fun n frame =>
             map job_title frame = groups /\
             (forall row, In row frame -> metric row = n))
          selected frames ->
  NoDup selected ->
  duplicated (List.concat frames) = false.
Proof.
  intros Hs HF. induction HF as [| n frame sel frs [Hg Hm] HF IH]; simpl;
    intros Hnd; [reflexivity |].
  apply NoDup_cons_iff in Hnd. destruct Hnd as [Hn Hnd].
  apply duplicated_app.
  - apply sorted_not_duplicated. rewrite Hg. exact Hs.
  - apply IH. exact Hnd.
  - intros a b Ha Hb. unfold same_entry.
    destruct (String.eqb_spec (metric a) (metric b)) as [E | E];
      [| apply andb_false_r].
    exfalso. apply Hn. rewrite <- (Hm a Ha), E.
    apply (concat_metric_in groups sel frs HF). exact Hb.
Qed.

Lemma duplicated_unique (l : list PlotRow) (a b : PlotRow) :
  duplicated l = false ->
  In a l -> In b l -> same_entry a b = true -> a = b.
Proof.
  induction l as [| r l IH]; simpl; [tauto |].
  intros H Ha Hb Hsame. apply orb_false_iff in H. destruct H as [Hr Hl].
  assert (Hnone : forall x, In x l -> same_entry r x = false).
  { intros x Hx. destruct (same_entry r x) eqn:E; [| reflexivity].
    assert (existsb (same_entry r) l = true)
      by (apply existsb_exists; exists x; split; assumption).
    congruence. }
  destruct Ha as [<- | Ha], Hb as [<- | Hb].
  - reflexivity.
  - rewrite (Hnone b Hb) in Hsame. discriminate.
  - rewrite same_entry_sym, (Hnone a Ha) in Hsame. discriminate.
  - apply IH; assumption.
Qed.

Lemma entry_of_row (plot_df : list PlotRow) (row : PlotRow) :
  duplicated plot_df = false ->
  In row plot_df ->
  entry plot_df (job_title row) (metric row) = raw_value row.
Proof.
  intros Hdup Hrow. unfold entry.
  destruct (find _ plot_df) as [r |] eqn:E.
  - apply find_some in E. destruct E as [Hr Hsame].
    rewrite (duplicated_unique plot_df row r Hdup Hrow Hr Hsame). reflexivity.
  - apply (find_none _ _ E) in Hrow. simpl in Hrow.
    unfold same_key in Hrow.
    rewrite cell_compare_refl, String.eqb_refl in Hrow. discriminate.
Qed.

(** The table of raw values of a run that reaches its charts can always be
    built: the pivot raises no [ValueError], it has one line per group of
    the frame, in the order of the chart, and the cell of a group under a
    metric is the raw value of that group's row in [plot_df]. *)
Theorem pivot_shows_every_raw_value (df : DataFrame)
    (checkbox : string -> bool) (plot_df : list PlotRow) :
  page (Some df) checkbox = Rendered plot_df ->
  let cols := sorted_unique String.compare (map metric plot_df) in
  pivot plot_df
  = Pivoted cols
      (map (fun k => (k, map (entry plot_df k) cols))
           (group_keys (key_column df "job_title"))) /\
  (forall row, In row plot_df ->
               entry plot_df (job_title row) (metric row) = raw_value row).
Proof.
  intros Hpage cols. unfold page in Hpage.
  pose proof (selected_metrics_nodup df checkbox) as Hnd.
  destruct (selected_metrics (metrics_config df) checkbox) as [| n rest] eqn:Esel;
    [discriminate |].
  destruct (plot_data df (metrics_config df) (n :: rest)) as [frames | e] eqn:E;
    [| discriminate].
  injection Hpage as <-.
  apply plot_data_ok in E.
  assert (HF : Forall2 (fun n frame =>
                          map job_title frame
                          = group_keys (key_column df "job_title") /\
                          (forall row, In row frame -> metric row = n))
                       (n :: rest) frames).
  { eapply Forall2_impl; [| exact E].
    intros a b Hab. apply (metric_frame_ok _ _ _ _ Hab). }
  assert (Hdup : duplicated (List.concat frames) = false).
  { apply (frames_not_duplicated _ _ _ (group_keys_sorted _) HF Hnd). }
  split; [| intros row Hrow; apply entry_of_row; assumption].
  unfold pivot. rewrite Hdup. fold cols. f_equal. f_equal.
  rewrite concat_map.
  apply (sorted_unique_of_copies cell_compare cell_compare_refl
           cell_compare_antisym).
  - apply group_keys_sorted.
  - clear -HF. induction HF as [| a b sel frs [Hg _] HF IH]; simpl;
      constructor; assumption.
  - inversion HF; subst; simpl; discriminate.
Qed.

Lemma pivot_shows_every_raw_value_witness :
  page (Some Samples.roles) Samples.salary_and_count
  = Rendered Samples.roles_table /\
  pivot Samples.roles_table
  = Pivoted (sorted_unique String.compare (map metric Samples.roles_table))
      (map (fun k =>
              (k, map (entry Samples.roles_table k)
                      (sorted_unique String.compare
                         (map metric Samples.roles_table))))
           (group_keys (key_column Samples.roles "job_title"))).
Proof.
  assert (H : page (Some Samples.roles) Samples.salary_and_count
              = Rendered Samples.roles_table) by reflexivity.
  split; [exact H |].
  exact (proj1 (pivot_shows_every_raw_value Samples.roles
                  Samples.salary_and_count Samples.roles_table H)).
Defined.

End PivotProperties.

(** ** Further properties of the skills page *)

Section ScenarioProperties.

Import SkillWars.

Lemma same_set_refl (l : list string) : same_set l l = true.
Proof.
  unfold same_set.
  assert (H : forallb (fun x => existsb (String.eqb x) l) l = true).
  { apply forallb_forall. intros x Hx. apply existsb_eqb_in. exact Hx. }
  rewrite H. reflexivity.
Qed.

Lemma scenario_of_part (all_levels selection : list string) :
  same_set selection all_levels = false ->
  current_scenario all_levels selection <> "ALL"%string.
Proof.
  intros H. unfold current_scenario. rewrite H.
  destruct selection as [| level_code [| ? ?]]; try discriminate.
  repeat match goal with
         | |- context [if ?b then _ else _] => destruct b
         end; discriminate.
Qed.

(** The view scenario is "ALL" exactly when every experience level of the
    frame is selected: "All Levels" is checked or every single box is.  In
    particular a frame with one level only, that level selected, is shown
    as "ALL" and not under the level's own code. *)
Theorem scenario_is_all_iff_every_level_selected (all_levels : list string)
    (check_all : bool) (checkbox : string -> bool) :
  current_scenario all_levels (final_selection all_levels check_all checkbox)
  = "ALL"%string
  <-> (check_all = true \/ forall l, In l all_levels -> checkbox l = true).
Proof.
  unfold final_selection. split.
  - intros H. destruct check_all; [left; reflexivity |]. right.
    destruct (same_set (filter checkbox all_levels) all_levels) eqn:E.
    + unfold same_set in E. apply andb_true_iff in E. destruct E as [_ E].
      rewrite forallb_forall in E. intros l Hl. specialize (E l Hl).
      apply existsb_eqb_in in E. apply filter_In in E. tauto.
    + exfalso. exact (scenario_of_part _ _ E H).
  - intros H.
    assert (E : (if check_all then all_levels else filter checkbox all_levels)
                = all_levels).
    { destruct check_all; [reflexivity |]. destruct H as [H | H]; [discriminate |].
      apply forallb_filter_id. apply forallb_forall. exact H. }
    rewrite E. unfold current_scenario. rewrite same_set_refl. reflexivity.
Qed.

(** With two or more levels selected and at least one left out, the view
    scenario is "OTHER", whatever the codes of the levels. *)
Theorem scenario_of_several_levels_is_other (all_levels selection : list string)
    (missing : string) :
  (2 <= List.length selection)%nat ->
  In missing all_levels ->
  ~ In missing selection ->
  current_scenario all_levels selection = "OTHER"%string.
Proof.
  intros Hlen Hin Hout. unfold current_scenario.
  assert (E : same_set selection all_levels = false).
  { unfold same_set. apply andb_false_iff. right.
    destruct (forallb _ all_levels) eqn:E; [| reflexivity].
    rewrite forallb_forall in E. specialize (E missing Hin).
    apply existsb_eqb_in in E. contradiction. }
  rewrite E. destruct selection as [| a [| b rest]]; simpl in Hlen; try lia.
  reflexivity.
Qed.

Lemma scenario_of_several_levels_is_other_witness :
  (2 <= List.length ["EN"; "SE"]%string)%nat /\
  In "MI"%string ["EN"; "EX"; "MI"; "SE"]%string /\
  ~ In "MI"%string ["EN"; "SE"]%string /\
  current_scenario ["EN"; "EX"; "MI"; "SE"]%string ["EN"; "SE"]%string
  = "OTHER"%string.
Proof.
  assert (H1 : (2 <= List.length ["EN"; "SE"]%string)%nat) by (simpl; lia).
  assert (H2 : In "MI"%string ["EN"; "EX"; "MI"; "SE"]%string)
    by (right; right; left; reflexivity).
  assert (H3 : ~ In "MI"%string ["EN"; "SE"]%string)
    by (simpl; intuition discriminate).
  split; [exact H1 |]. split; [exact H2 |]. split; [exact H3 |].
  exact (scenario_of_several_levels_is_other _ _ _ H1 H2 H3).
Defined.

(** The position of a label is always one of the four positions the page
    uses, whatever the scenario, the median and the skill. *)
Theorem text_position_is_one_of_four (scenario : string) (median_count : float)
    (row : Stat) :
  In (get_text_position scenario median_count row)
     ["middle left"; "middle right"; "bottom center"; "top center"]%string.
Proof.
  unfold get_text_position.
  repeat match goal with
         | |- context [if ?b then _ else _] => destruct b
         end; simpl; tauto.
Qed.

(** A skill whose name has none of the substrings the page singles out, and
    is not "Java", gets its label on the left exactly when its job count is
    above the median count, in every scenario. *)
Theorem plain_skill_is_placed_by_the_median (scenario : string)
    (median_count : float) (row : Stat) :
  (forall w,
      In w ["Deep Learning"; "Hadoop"; "Mathematics"; "GCP"; "Tableau"; "MLO";
            "Azure"; "Docker"; "Data Viz"; "Git"; "Linux"; "Spark"]%string ->
      contains w (skills_list row) = false) ->
  skills_list row <> "Java"%string ->
  get_text_position scenario median_count row
  = if fgt (of_nat (Job_Count row)) median_count
    then "middle left"%string else "middle right"%string.
Proof.
  intros H Hjava. unfold get_text_position.
  rewrite !H by (simpl; tauto).
  apply String.eqb_neq in Hjava. rewrite Hjava.
  repeat match goal with
         | |- context [if String.eqb scenario ?s then _ else _] =>
             destruct (String.eqb scenario s)
         end; reflexivity.
Qed.

Lemma plain_skill_is_placed_by_the_median_witness :
  (forall w,
      In w ["Deep Learning"; "Hadoop"; "Mathematics"; "GCP"; "Tableau"; "MLO";
            "Azure"; "Docker"; "Data Viz"; "Git"; "Linux"; "Spark"]%string ->
      contains w "Python" = false) /\
  "Python"%string <> "Java"%string /\
  get_text_position "EX" (Some 50%Q) (mkStat "Python" (Some 100000%Q) 80)
  = "middle left"%string.
Proof.
  assert (H1 : forall w,
             In w ["Deep Learning"; "Hadoop"; "Mathematics"; "GCP"; "Tableau";
                   "MLO"; "Azure"; "Docker"; "Data Viz"; "Git"; "Linux";
                   "Spark"]%string ->
             contains w (skills_list (mkStat "Python" (Some 100000%Q) 80))
             = false).
  { intros w Hw. simpl in Hw.
    repeat (destruct Hw as [<- | Hw]; [reflexivity |]). destruct Hw. }
  assert (H2 : skills_list (mkStat "Python" (Some 100000%Q) 80)
               <> "Java"%string) by discriminate.
  split; [exact H1 |]. split; [exact H2 |].
  exact (plain_skill_is_placed_by_the_median "EX" (Some 50%Q)
           (mkStat "Python" (Some 100000%Q) 80) H1 H2).
Defined.

End ScenarioProperties.

Lemma scenario_is_all_iff_every_level_selected_witness :
  (true = true \/
   forall l, In l ["EN"; "SE"]%string -> Samples.nothing_checked l = true) /\
  SkillWars.current_scenario ["EN"; "SE"]%string
    (SkillWars.final_selection ["EN"; "SE"]%string true Samples.nothing_checked)
  = "ALL"%string.
Proof.
  assert (H : true = true \/
              forall l, In l ["EN"; "SE"]%string ->
                        Samples.nothing_checked l = true)
    by (left; reflexivity).
  split; [exact H |].
  exact (proj2 (scenario_is_all_iff_every_level_selected
                  ["EN"; "SE"]%string true Samples.nothing_checked) H).
Defined.

(** ** The median of the job counts *)

Section MedianProperties.

Import SkillWars.

Local Open Scope Q_scope.

Lemma insert_count_perm (c : nat) (l : list nat) :
  Permutation (insert_count c l) (c :: l).
Proof.
  induction l as [| x l IH]; simpl; [reflexivity |].
  destruct (c <=? x)%nat; [reflexivity |].
  rewrite IH. apply perm_swap.
Qed.

Lemma sort_counts_perm (l : list nat) : Permutation (sort_counts l) l.
Proof.
  induction l as [| c l IH]; simpl; [reflexivity |].
  rewrite insert_count_perm. constructor. exact IH.
Qed.

Lemma insert_count_sorted (c : nat) (l : list nat) :
  StronglySorted le l -> StronglySorted le (insert_count c l).
Proof.
  induction l as [| x l IH]; simpl; intros Hs; [repeat constructor |].
  apply StronglySorted_inv in Hs. destruct Hs as [Hl Hx].
  destruct (Nat.leb_spec c x) as [Hle | Hlt].
  - constructor; [constructor; assumption |].
    constructor; [exact Hle |].
    eapply Forall_impl; [| exact Hx]. intros y Hy. simpl in Hy. lia.
  - constructor; [apply IH; exact Hl |].
    apply Forall_forall. intros y Hy.
    apply (Permutation_in _ (insert_count_perm c l)) in Hy.
    destruct Hy as [<- | Hy]; [lia |].
    rewrite Forall_forall in Hx. apply Hx. exact Hy.
Qed.

Lemma sort_counts_sorted (l : list nat) : StronglySorted le (sort_counts l).
Proof.
  induction l as [| c l IH]; simpl; [constructor |].
  apply insert_count_sorted. exact IH.
Qed.

Lemma sorted_nth_le (s : list nat) (i j : nat) :
  StronglySorted le s ->
  (i <= j)%nat -> (j < List.length s)%nat ->
  (nth i s O <= nth j s O)%nat.
Proof.
  intros Hs. revert i j. induction Hs as [| x s Hs IH Hx]; intros i j Hij Hj.
  - simpl in Hj. lia.
  - destruct i as [| i], j as [| j]; simpl in *; try lia.
    + rewrite Forall_forall in Hx. apply Hx. apply nth_In. lia.
    + apply IH; lia.
Qed.

Lemma in_firstn_nth (s : list nat) (h x : nat) :
  In x (firstn h s) ->
  exists i, (i < h)%nat /\ (i < List.length s)%nat /\ nth i s O = x.
Proof.
  revert h. induction s as [| y s IH]; intros h H.
  - rewrite firstn_nil in H. destruct H.
  - destruct h as [| h]; [destruct H |]. simpl in H.
    destruct H as [<- | H].
    + exists O. simpl. repeat split; lia.
    + destruct (IH h H) as (i & Hi & Hlen & E).
      exists (S i). simpl. repeat split; lia.
Qed.

Lemma filter_length_perm {B : Type} (f : B -> bool) (l l' : list B) :
  Permutation l l' ->
  List.length (filter f l) = List.length (filter f l').
Proof.
  intros H. induction H as [| x l l' H IH | x y l | l l' l'' H1 IH1 H2 IH2];
    simpl.
  - reflexivity.
  - destruct (f x); simpl; congruence.
  - destruct (f x), (f y); reflexivity.
  - congruence.
Qed.

Lemma filter_after (f : nat -> bool) (s : list nat) (h : nat) :
  (forall x, In x (firstn h s) -> f x = false) ->
  (List.length (filter f s) <= List.length s - h)%nat.
Proof.
  intros H. rewrite <- (firstn_skipn h s) at 1.
  rewrite filter_app, (filter_none f _ H). simpl.
  pose proof (filter_length_le f (skipn h s)) as Hle.
  rewrite length_skipn in Hle. exact Hle.
Qed.

Lemma half_of_even (n : nat) :
  Nat.even n = true -> (n = 2 * (n / 2))%nat.
Proof.
  intros H. apply Nat.even_spec in H. destruct H as [k ->].
  rewrite (Nat.mul_comm 2 k), Nat.div_mul; lia.
Qed.

Lemma half_of_odd (n : nat) :
  Nat.even n = false -> (n = 2 * (n / 2) + 1)%nat.
Proof.
  intros H. assert (Ho : Nat.odd n = true).
  { unfold Nat.odd. rewrite H. reflexivity. }
  apply Nat.odd_spec in Ho. destruct Ho as [k ->].
  rewrite (Nat.mul_comm 2 k), Nat.div_add_l by lia. simpl. lia.
Qed.

Lemma inject_le (x y : nat) :
  (x <= y)%nat -> inject_Z (Z.of_nat x) <= inject_Z (Z.of_nat y).
Proof. intros H. rewrite <- Zle_Qle. lia. Qed.

(** The lower half of the sorted counts is not above the median. *)
Lemma lower_half_not_above_median (l : list nat) (x : nat) :
  let s := sort_counts l in
  In x (firstn (List.length s - List.length s / 2) s) ->
  fgt (of_nat x) (median l) = false.
Proof.
  intros s Hx. apply in_firstn_nth in Hx. destruct Hx as (i & Hi & Hlen & <-).
  pose proof (sort_counts_sorted l) as Hs. fold s in Hs.
  unfold median. fold s.
  destruct (List.length s) as [| n'] eqn:En; [lia |].
  assert (Hpos : (0 < S n')%nat) by lia.
  rewrite <- En in *. set (n := List.length s) in *.
  destruct (Nat.even n) eqn:Ev; unfold fgt, of_nat; rewrite negb_false_iff;
    apply Qle_bool_iff.
  - pose proof (half_of_even n Ev) as Hn.
    assert (H1 : (nth i s O <= nth (n / 2 - 1) s O)%nat)
      by (apply sorted_nth_le; [exact Hs | lia | lia]).
    assert (H2 : (nth (n / 2 - 1) s O <= nth (n / 2) s O)%nat)
      by (apply sorted_nth_le; [exact Hs | lia | lia]).
    apply inject_le in H1. apply inject_le in H2.
    revert H1 H2.
    generalize (inject_Z (Z.of_nat (nth i s O))),
               (inject_Z (Z.of_nat (nth (n / 2 - 1) s O))),
               (inject_Z (Z.of_nat (nth (n / 2) s O))).
    intros x a b H1 H2. apply Qle_shift_div_l; lra.
  - pose proof (half_of_odd n Ev) as Hn.
    apply inject_le. apply sorted_nth_le; [exact Hs | lia | lia].
Qed.

(** At most half of the skills have a job count above the median count:
    where nothing else decides, the page puts at most half of the labels on
    the left. *)
Theorem at_most_half_above_the_median (l : list nat) :
  (2 * List.length (filter (fun c => fgt (of_nat c) (median l)) l)
   <= List.length l)%nat.
Proof.
  rewrite <- (filter_length_perm _ _ _ (sort_counts_perm l)).
  rewrite <- (Permutation_length (sort_counts_perm l)).
  set (s := sort_counts l).
  pose proof (filter_after (fun c => fgt (of_nat c) (median l)) s
                (List.length s - List.length s / 2)
                (lower_half_not_above_median l)) as H.
  assert (Hhalf : (2 * (List.length s / 2) <= List.length s)%nat).
  { destruct (Nat.even (List.length s)) eqn:Ev.
    - pose proof (half_of_even _ Ev). lia.
    - pose proof (half_of_odd _ Ev). lia. }
  lia.
Qed.

End MedianProperties.

(** ** The labels and the two tables under the chart *)

Section TopTableProperties.

Import SkillWars.

Local Open Scope Q_scope.

Lemma precedes_firstn {B : Type} (n : nat) (s : list B) (a b : B) :
  precedes (firstn n s) a b -> precedes s a b.
Proof.
  intros (l1 & l2 & E & Ha & Hb). exists l1, (l2 ++ skipn n s)%list.
  split; [| split; [exact Ha | apply in_or_app; left; exact Hb]].
  rewrite app_assoc, <- E. symmetry. apply firstn_skipn.
Qed.

(** The [n] largest rows: their number, where they come from, their order,
    and the rows left out. *)
Lemma nlargest_spec (n : nat) (l : list (Stat * float)) :
  List.length (nlargest n l) = Nat.min n (List.length l) /\
  (forall x, In x (nlargest n l) -> In x l) /\
  (forall a b, precedes (nlargest n l) a b -> above (snd b) (snd a) = false) /\
  (forall a b, In a (nlargest n l) -> In b l -> ~ In b (nlargest n l) ->
               above (snd b) (snd a) = false).
Proof.
  split; [| split; [| split]].
  - unfold nlargest. rewrite length_firstn.
    rewrite (Permutation_length (sort_desc_perm l)). reflexivity.
  - intros x. apply nlargest_in.
  - intros a b H. apply precedes_firstn in H.
    apply (proj1 (sort_desc_order l a b H)).
  - intros a b Ha Hb Hout.
    apply (proj1 (sort_desc_order l a b (selected_precedes n l a b Hb Ha Hout))).
Qed.

Lemma top_by_key (key : Stat -> float) (table : list Labeled) :
  let top := map fst (nlargest 5 (map (fun r => (stat r, key (stat r))) table)) in
  List.length top = Nat.min 5 (List.length table) /\
  (forall t, In t top -> In t (map stat table)) /\
  (forall a b, precedes top a b -> above (key b) (key a) = false) /\
  (forall a b, In a top -> In b (map stat table) -> ~ In b top ->
               above (key b) (key a) = false).
Proof.
  intros top. set (scored := map (fun r => (stat r, key (stat r))) table) in *.
  destruct (nlargest_spec 5 scored) as (H1 & H2 & H3 & H4).
  assert (Hsnd : forall x, In x scored -> x = (fst x, key (fst x))).
  { intros x Hx. unfold scored in Hx. apply in_map_iff in Hx.
    destruct Hx as (r & <- & _). reflexivity. }
  assert (Hpair : forall t, In t top -> In (t, key t) (nlargest 5 scored)).
  { intros t Ht. unfold top in Ht. apply in_map_iff in Ht.
    destruct Ht as (x & <- & Hx). rewrite <- (Hsnd x (H2 x Hx)). exact Hx. }
  split; [| split; [| split]].
  - unfold top. rewrite length_map, H1. unfold scored. rewrite length_map.
    reflexivity.
  - intros t Ht. apply Hpair in Ht. apply H2 in Ht. unfold scored in Ht.
    apply in_map_iff in Ht. destruct Ht as (r & [= <- _] & Hr).
    apply in_map. exact Hr.
  - intros a b (l1 & l2 & E & Ha & Hb).
    unfold top in E. apply map_eq_app in E.
    destruct E as (m1 & m2 & E & <- & <-).
    apply in_map_iff in Ha. destruct Ha as (x & <- & Hx).
    apply in_map_iff in Hb. destruct Hb as (y & <- & Hy).
    assert (Hp : precedes (nlargest 5 scored) x y)
      by (exists m1, m2; repeat split; assumption).
    pose proof (H3 x y Hp) as Habove.
    assert (Hxin : In x (nlargest 5 scored))
      by (rewrite E; apply in_or_app; left; exact Hx).
    assert (Hyin : In y (nlargest 5 scored))
      by (rewrite E; apply in_or_app; right; exact Hy).
    rewrite (Hsnd x (H2 x Hxin)), (Hsnd y (H2 y Hyin)) in Habove.
    exact Habove.
  - intros a b Ha Hb Hout. apply Hpair in Ha.
    assert (Hbin : In (b, key b) scored).
    { apply in_map_iff in Hb. destruct Hb as (r & <- & Hr).
      unfold scored. apply in_map_iff. exists r. split; [reflexivity | exact Hr]. }
    assert (Hbout : ~ In (b, key b) (nlargest 5 scored)).
    { intros H. apply Hout. unfold top.
      apply (in_map fst) in H. exact H. }
    exact (H4 _ _ Ha Hbin Hbout).
Qed.

(** The table "Top Salaries" has five skills of the table, or all of them
    when there are fewer, in descending order of their salary, and no skill
    left out earns more than a skill it lists.  The table "Highest Demand"
    is the same for the job counts. *)
Theorem top_five_tables (table : list Labeled) :
  (List.length (top_salaries table) = Nat.min 5 (List.length table) /\
   (forall t, In t (top_salaries table) -> In t (map stat table)) /\
   (forall a b, precedes (top_salaries table) a b ->
                above (Average_Salary b) (Average_Salary a) = false) /\
   (forall a b, In a (top_salaries table) -> In b (map stat table) ->
                ~ In b (top_salaries table) ->
                above (Average_Salary b) (Average_Salary a) = false)) /\
  (List.length (highest_demand table) = Nat.min 5 (List.length table) /\
   (forall t, In t (highest_demand table) -> In t (map stat table)) /\
   (forall a b, precedes (highest_demand table) a b ->
                (Job_Count b <= Job_Count a)%nat) /\
   (forall a b, In a (highest_demand table) -> In b (map stat table) ->
                ~ In b (highest_demand table) ->
                (Job_Count b <= Job_Count a)%nat)).
Proof.
  assert (Hcount : forall a b : Stat,
             above (of_nat (Job_Count b)) (of_nat (Job_Count a)) = false ->
             (Job_Count b <= Job_Count a)%nat).
  { intros a b H. unfold of_nat in H. apply above_le in H.
    rewrite <- Zle_Qle in H. lia. }
  split.
  - apply (top_by_key Average_Salary table).
  - destruct (top_by_key (fun s => of_nat (Job_Count s)) table)
      as (H1 & H2 & H3 & H4).
    split; [exact H1 |]. split; [exact H2 |]. split.
    + intros a b H. apply Hcount. apply H3. exact H.
    + intros a b Ha Hb Hout. apply Hcount. apply H4; assumption.
Qed.

Lemma top_five_tables_witness :
  let table := Samples.postings_table in
  let python := mkStat "Python" (Some 100000) 10 in
  In python (top_salaries table) /\ In python (map stat table).
Proof.
  intros table python.
  assert (H : In python (top_salaries table)) by (left; reflexivity).
  split; [exact H |].
  exact (proj1 (proj2 (proj1 (top_five_tables table))) python H).
Defined.

(** A table with no more skills than there are labels has every skill
    labeled with its own name. *)
Theorem few_skills_are_all_labeled (n : nat) (stats : list Stat) :
  (List.length stats <= n)%nat ->
  forall row, In row (label_logic n stats) ->
              Label row = skills_list (stat row).
Proof.
  intros Hlen row Hrow. apply label_logic_rows in Hrow.
  destruct Hrow as [Hin ->].
  assert (E : existsb (String.eqb (skills_list (stat row)))
                      (top_skills n (with_score stats)) = true).
  { apply existsb_eqb_in. unfold top_skills, nlargest.
    rewrite firstn_all2.
    - apply (in_map (fun r : Stat * float => skills_list (fst r))
                    _ (stat row, Score row)).
      apply (Permutation_in _ (Permutation_sym (sort_desc_perm _))). exact Hin.
    - rewrite (Permutation_length (sort_desc_perm _)).
      unfold with_score. rewrite length_map. exact Hlen. }
  rewrite E. reflexivity.
Qed.

Lemma few_skills_are_all_labeled_witness :
  let row := mkLabeled (mkStat "Z" (Some 40000) 50)
                       (Some ((40000 / 100000) + (inject_Z 50 / inject_Z 100)))
                       "Z" in
  (List.length Samples.skills <= num_labels)%nat /\
  In row (label_logic num_labels Samples.skills) /\
  Label row = skills_list (stat row).
Proof.
  intros row.
  assert (H1 : (List.length Samples.skills <= num_labels)%nat)
    by (vm_compute; lia).
  assert (H2 : In row (label_logic num_labels Samples.skills))
    by (right; right; left; reflexivity).
  split; [exact H1 |]. split; [exact H2 |].
  exact (few_skills_are_all_labeled num_labels Samples.skills H1 row H2).
Defined.

End TopTableProperties.

(** ** The rows of the skills table *)

Section SkillTableProperties.

Import SkillWars.

Local Open Scope Q_scope.

(** On a frame without the column [experience_level] the page under
    src/pages never reaches its chart: whatever is checked, it asks for an
    experience level and stops. *)
Theorem no_experience_level_column_stops (df : App.Frame) (check_all : bool)
    (checkbox : string -> bool) :
  has_column (App.columns df) "experience_level" = false ->
  App.main df check_all checkbox
  = Stopped (st_warning "Please select at least one experience level.").
Proof.
  intros H. unfold App.main, final_selection, App.all_levels. rewrite H.
  destruct check_all; reflexivity.
Qed.

Lemma no_experience_level_column_stops_witness :
  has_column
    (App.columns (App.mkFrame ["skills_list"; "salary_usd"]%string [])) 
    "experience_level" = false /\
  App.main (App.mkFrame ["skills_list"; "salary_usd"]%string []) true
           Samples.every_level
  = Stopped (st_warning "Please select at least one experience level.").
Proof.
  assert (H : has_column
                (App.columns (App.mkFrame ["skills_list"; "salary_usd"]%string []))
                "experience_level" = false) by reflexivity.
  split; [exact H |].
  exact (no_experience_level_column_stops _ true Samples.every_level H).
Defined.

Lemma replace_is_not_a_long_name (skill : string) :
  ~ In (replace skill)
       ["Data Visualization"; "Machine Learning";
        "Natural Language Processing"; "Computer Vision"]%string.
Proof.
  unfold replace.
  destruct (String.eqb_spec skill "Data Visualization");
    [simpl; intuition discriminate |].
  destruct (String.eqb_spec skill "Machine Learning");
    [simpl; intuition discriminate |].
  destruct (String.eqb_spec skill "Natural Language Processing");
    [simpl; intuition discriminate |].
  destruct (String.eqb_spec skill "Computer Vision");
    [simpl; intuition discriminate |].
  simpl. intuition congruence.
Qed.

Lemma in_notnull {B : Type} (s : list (option B)) (x : B) :
  In x (notnull s) <-> In (Some x) s.
Proof.
  induction s as [| [y |] s IH]; simpl.
  - tauto.
  - rewrite IH. split; intros [H | H]; auto; left; congruence.
  - rewrite IH. split; [auto | intros [H | H]; [discriminate | exact H]].
Qed.

Lemma skill_keys_in (skills : list (option string)) (k : string) :
  In k (skill_keys skills) <-> In (Some k) skills.
Proof.
  unfold skill_keys. rewrite <- in_notnull. split.
  - apply sorted_unique_sound.
  - intros H.
    destruct (sorted_unique_complete String.compare string_compare_refl _ _ H)
      as (x & Hx & E).
    apply String.compare_eq_iff in E. subst. exact Hx.
Qed.

Lemma table_names (n : nat) (stats : list Stat) (row : Labeled) :
  In row (label_logic n stats) -> In (stat row) stats.
Proof.
  intros H. apply label_logic_rows in H. destruct H as [H _].
  rewrite <- (with_score_stats stats). apply (in_map fst) in H. exact H.
Qed.

Lemma prepared_names (stats : list Stat) (s : Stat) :
  In s (round_salary (enough_postings stats)) ->
  In (skills_list s) (map skills_list stats).
Proof.
  unfold round_salary, enough_postings. intros H. apply in_map_iff in H.
  destruct H as (s0 & <- & H0). apply filter_In in H0. simpl.
  apply in_map. tauto.
Qed.

(** The four long skill names the page abbreviates never name a row of the
    table, in either copy of the page: their postings are counted under
    "Data Viz", "ML", "NLP" and "CV". *)
Theorem long_skill_names_never_appear :
  (forall (df : App.Frame) (check_all : bool) (checkbox : string -> bool)
          (table : list Labeled) (row : Labeled),
      App.main df check_all checkbox = Rendered table ->
      In row table ->
      ~ In (skills_list (stat row))
           ["Data Visualization"; "Machine Learning";
            "Natural Language Processing"; "Computer Vision"]%string) /\
  (forall (df : list Streamlit.Posting) (check_all : bool)
          (checkbox : string -> bool) (table : list Labeled) (row : Labeled),
      Streamlit.main df check_all checkbox = Rendered table ->
      In row table ->
      ~ In (skills_list (stat row))
           ["Data Visualization"; "Machine Learning";
            "Natural Language Processing"; "Computer Vision"]%string).
Proof.
  split.
  - intros df check_all checkbox table row H Hrow. unfold App.main in H.
    destruct (final_selection _ _ _) as [| level levels]; [discriminate |].
    destruct (has_column (App.columns df) "salary_usd"); [| discriminate].
    destruct (round_salary (enough_postings (App.aggregate _)))
      as [| s0 rest] eqn:E; [discriminate |].
    injection H as <-. rewrite <- E in Hrow.
    apply table_names in Hrow. apply prepared_names in Hrow.
    unfold App.aggregate in Hrow. rewrite map_map in Hrow. simpl in Hrow.
    rewrite map_id in Hrow. apply skill_keys_in in Hrow.
    apply in_map_iff in Hrow. destruct Hrow as (p & [= Hp] & Hin).
    apply in_map_iff in Hin. destruct Hin as (p0 & <- & _).
    simpl in Hp. rewrite <- Hp. apply replace_is_not_a_long_name.
  - intros df check_all checkbox table row H Hrow. unfold Streamlit.main in H.
    destruct (final_selection _ _ _) as [| level levels]; [discriminate |].
    injection H as <-.
    apply table_names in Hrow. apply prepared_names in Hrow.
    unfold Streamlit.aggregate in Hrow. rewrite map_map in Hrow. simpl in Hrow.
    rewrite map_id in Hrow. apply skill_keys_in in Hrow.
    rewrite map_map in Hrow. simpl in Hrow.
    apply in_map_iff in Hrow. destruct Hrow as (r & Hr & _).
    destruct (snd r) as [k |]; simpl in Hr; [| discriminate].
    injection Hr as <-. apply replace_is_not_a_long_name.
Qed.

Lemma long_skill_names_never_appear_witness :
  let python := nth 0 Samples.exploded_postings_table
                      (mkLabeled (mkStat "" None 0) None "") in
  App.main Samples.exploded_postings true Samples.every_level
  = Rendered Samples.exploded_postings_table /\
  In python Samples.exploded_postings_table /\
  ~ In (skills_list (stat python))
       ["Data Visualization"; "Machine Learning";
        "Natural Language Processing"; "Computer Vision"]%string.
Proof.
  intros python.
  assert (H1 : App.main Samples.exploded_postings true Samples.every_level
               = Rendered Samples.exploded_postings_table)
    by (vm_compute; reflexivity).
  assert (H2 : In python Samples.exploded_postings_table)
    by (left; reflexivity).
  split; [exact H1 |]. split; [exact H2 |].
  exact (proj1 long_skill_names_never_appear Samples.exploded_postings true
               Samples.every_level Samples.exploded_postings_table python H1 H2).
Defined.

Lemma filter_map_comm {B C : Type} (f : C -> bool) (g : B -> C) (l : list B) :
  filter f (map g l) = map g (filter (fun x => f (g x)) l).
Proof.
  induction l as [| x l IH]; simpl; [reflexivity |].
  destruct (f (g x)); simpl; rewrite IH; reflexivity.
Qed.

Lemma filter_filter {B : Type} (f g : B -> bool) (l : list B) :
  filter f (filter g l) = filter (fun x => g x && f x) l.
Proof.
  induction l as [| x l IH]; simpl; [reflexivity |].
  destruct (g x); simpl; [destruct (f x); simpl |]; rewrite IH; reflexivity.
Qed.

Lemma count_positive {B : Type} (s : list (option B)) :
  (1 <= count s)%nat -> s <> [].
Proof. intros H ->. unfold count in H. simpl in H. lia. Qed.

(** The postings behind a row of the table of the page under src/pages:
    those of the selected experience levels whose skill, once abbreviated,
    is the skill of the row. *)
Lemma app_group (selection : list string) (rows : list App.Posting)
    (k : string) :
  map App.salary_usd
      (filter (fun p => String.eqb (App.skill p) k)
              (map (fun p => App.mkPosting (App.experience_level p)
                                           (replace (App.skill p))
                                           (App.salary_usd p))
                   (filter (fun p => isin selection (App.experience_level p))
                           rows)))
  = map App.salary_usd
        (filter (fun p => isin selection (App.experience_level p)
                          && String.eqb (replace (App.skill p)) k)
                rows).
Proof.
  rewrite filter_map_comm, map_map. simpl. rewrite filter_filter. reflexivity.
Qed.

(** The table of a run of the page under src/pages that reaches it. *)
Lemma app_main_rendered (df : App.Frame) (check_all : bool)
    (checkbox : string -> bool) (table : list Labeled) :
  App.main df check_all checkbox = Rendered table ->
  table
  = label_logic num_labels
      (round_salary
         (enough_postings
            (App.aggregate
               (map (fun p => App.mkPosting (App.experience_level p)
                                            (replace (App.skill p))
                                            (App.salary_usd p))
                    (filter
                       (fun p =>
                          isin (final_selection (App.all_levels df) check_all
                                                checkbox)
                               (App.experience_level p))
                       (App.rows df)))))).
Proof.
  unfold App.main. intros H.
  destruct (final_selection (App.all_levels df) check_all checkbox)
    as [| level levels] eqn:Esel; [discriminate |].
  destruct (has_column (App.columns df) "salary_usd"); [| discriminate].
  destruct (round_salary (enough_postings (App.aggregate _)))
    as [| s0 rest] eqn:E; [discriminate |].
  injection H as <-. reflexivity.
Qed.

(** What the table of the page under src/pages shows.  Every row is a skill
    with its number of postings that state a salary, among the selected
    experience levels, and the rounded mean of these salaries; and every
    skill with ten such postings or more has its row. *)
Theorem table_rows_are_the_skills_with_ten_postings (df : App.Frame)
    (check_all : bool) (checkbox : string -> bool) (table : list Labeled) :
  App.main df check_all checkbox = Rendered table ->
  let selection := final_selection (App.all_levels df) check_all checkbox in
  let salaries k :=
    map App.salary_usd
        (filter (fun p => isin selection (App.experience_level p)
                          && String.eqb (replace (App.skill p)) k)
                (App.rows df)) in
  (forall row,
      In row table ->
      stat row = mkStat (skills_list (stat row))
                        (round0 (mean (salaries (skills_list (stat row)))))
                        (count (salaries (skills_list (stat row))))) /\
  (forall k,
      (10 <= count (salaries k))%nat ->
      exists row,
        In row table /\
        stat row = mkStat k (round0 (mean (salaries k))) (count (salaries k))).
Proof.
  intros H selection salaries. apply app_main_rendered in H.
  fold selection in H.
  match type of H with
  | context [App.aggregate ?f] => set (filtered_df := f) in H
  end.
  subst table.
  assert (Hagg : App.aggregate filtered_df
                 = map (fun k => mkStat k (mean (salaries k)) (count (salaries k)))
                       (skill_keys (map (fun p => Some (App.skill p)) filtered_df))).
  { unfold App.aggregate. apply map_ext. intros k.
    unfold filtered_df, salaries. rewrite app_group. reflexivity. }
  split.
  - intros row Hrow. apply table_names in Hrow.
    unfold round_salary in Hrow. apply in_map_iff in Hrow.
    destruct Hrow as (s & <- & Hs). unfold enough_postings in Hs.
    apply filter_In in Hs. destruct Hs as [Hs _]. rewrite Hagg in Hs.
    apply in_map_iff in Hs. destruct Hs as (k & <- & _). reflexivity.
  - intros k Hk.
    assert (Hin : In (mkStat k (round0 (mean (salaries k))) (count (salaries k)))
                     (round_salary (enough_postings (App.aggregate filtered_df)))).
    { unfold round_salary. apply in_map_iff.
      exists (mkStat k (mean (salaries k)) (count (salaries k))).
      split; [reflexivity |]. unfold enough_postings. apply filter_In.
      split; [| cbn [Job_Count]; apply Nat.leb_le; exact Hk].
      rewrite Hagg. apply in_map_iff. exists k. split; [reflexivity |].
      apply skill_keys_in.
      assert (Hne : salaries k <> []) by (apply count_positive; lia).
      unfold salaries in Hne.
      destruct (filter (fun p => isin selection (App.experience_level p)
                                  && String.eqb (replace (App.skill p)) k)
                       (App.rows df)) as [| p ps] eqn:Ef;
        [exfalso; apply Hne; reflexivity |].
      assert (Hp : In p (p :: ps)) by (left; reflexivity).
      rewrite <- Ef in Hp. apply filter_In in Hp. destruct Hp as [Hp Hc].
      apply andb_true_iff in Hc. destruct Hc as [Hsel Hname].
      apply String.eqb_eq in Hname.
      apply in_map_iff.
      exists (App.mkPosting (App.experience_level p) (replace (App.skill p))
                            (App.salary_usd p)).
      split; [simpl; congruence |].
      unfold filtered_df. apply in_map_iff. exists p.
      split; [reflexivity |]. apply filter_In. split; assumption. }
    unfold label_logic.
    rewrite <- (with_score_stats
                  (round_salary (enough_postings (App.aggregate filtered_df))))
      in Hin.
    apply in_map_iff in Hin. destruct Hin as ([s sc] & Hs & Hsc). simpl in Hs.
    eexists. split.
    + apply in_map_iff. exists (s, sc). split; [reflexivity | exact Hsc].
    + simpl. exact Hs.
Qed.

Lemma table_rows_are_the_skills_with_ten_postings_witness :
  let selection :=
    final_selection (App.all_levels Samples.exploded_postings) true
                    Samples.every_level in
  let salaries :=
    map App.salary_usd
        (filter (fun p => isin selection (App.experience_level p)
                          && String.eqb (replace (App.skill p)) "Python")
                (App.rows Samples.exploded_postings)) in
  App.main Samples.exploded_postings true Samples.every_level
  = Rendered Samples.exploded_postings_table /\
  (10 <= count salaries)%nat /\
  exists row,
    In row Samples.exploded_postings_table /\
    stat row = mkStat "Python" (round0 (mean salaries)) (count salaries).
Proof.
  intros selection salaries.
  assert (H1 : App.main Samples.exploded_postings true Samples.every_level
               = Rendered Samples.exploded_postings_table)
    by (vm_compute; reflexivity).
  assert (H2 : (10 <= count salaries)%nat) by (vm_compute; lia).
  split; [exact H1 |]. split; [exact H2 |].
  exact (proj2 (table_rows_are_the_skills_with_ten_postings
                  Samples.exploded_postings true Samples.every_level
                  Samples.exploded_postings_table H1) "Python"%string H2).
Defined.

End SkillTableProperties.

(** ** The skill lists of the older copy of the page *)

Section ExplodeProperties.

Import SkillWars.

Lemma split_step (cur : string) (c : ascii) (rest : string) :
  Streamlit.split cur (String c rest)
  = if Ascii.eqb c ","
    then match rest with
         | String c' rest' =>
             if Ascii.eqb c' " " then cur :: Streamlit.split "" rest'
             else Streamlit.split (cur ++ String c "") rest
         | EmptyString => Streamlit.split (cur ++ String c "") rest
         end
    else Streamlit.split (cur ++ String c "") rest.
Proof.
  destruct c as [[] [] [] [] [] [] [] []]; try reflexivity.
  destruct rest as [| c' rest']; [reflexivity |].
  destruct c' as [[] [] [] [] [] [] [] []]; reflexivity.
Qed.

Lemma split_nonempty (cur s : string) : Streamlit.split cur s <> [].
Proof.
  assert (H : forall t,
             (forall cur, Streamlit.split cur t <> []) /\
             (forall cur c, Streamlit.split cur (String c t) <> [])).
  { clear. intros t. induction t as [| c' s [IH1 IH2]].
    - split; [discriminate |]. intros cur0 c. rewrite split_step.
      destruct (Ascii.eqb c ","); discriminate.
    - split; [intros cur0; apply (IH2 cur0 c') |].
      intros cur0 c. rewrite split_step.
      destruct (Ascii.eqb c ","); [| apply (IH2 _ c')].
      destruct (Ascii.eqb c' " "); [discriminate | apply (IH2 _ c')]. }
  apply H.
Qed.

Lemma concat_cons (sep x : string) (l : list string) :
  l <> [] -> String.concat sep (x :: l) = (x ++ sep ++ String.concat sep l)%string.
Proof. destruct l; [congruence | reflexivity]. Qed.

Lemma append_empty_r (a : string) : (a ++ "" = a)%string.
Proof. induction a as [| x a IH]; simpl; [reflexivity | rewrite IH; reflexivity]. Qed.

Lemma append_assoc (a b c : string) :
  ((a ++ b) ++ c = a ++ (b ++ c))%string.
Proof. induction a as [| x a IH]; simpl; [reflexivity | rewrite IH; reflexivity]. Qed.

Lemma split_join (cur s : string) :
  String.concat ", " (Streamlit.split cur s) = (cur ++ s)%string.
Proof.
  assert (H : forall t,
             (forall cur,
                 String.concat ", " (Streamlit.split cur t) = (cur ++ t)%string) /\
             (forall cur c,
                 String.concat ", " (Streamlit.split cur (String c t))
                 = (cur ++ String c t)%string)).
  { clear. intros t. induction t as [| c' s [IH1 IH2]].
    - split; [intros cur0; simpl; symmetry; apply append_empty_r |].
      intros cur0 c. rewrite split_step.
      destruct (Ascii.eqb c ","); reflexivity.
    - split; [intros cur0; apply (IH2 cur0 c') |].
      intros cur0 c. rewrite split_step.
      assert (Hplain :
                String.concat ", "
                  (Streamlit.split (cur0 ++ String c "") (String c' s))
                = (cur0 ++ String c (String c' s))%string).
      { rewrite IH2, append_assoc. reflexivity. }
      destruct (Ascii.eqb_spec c ","); [| exact Hplain].
      destruct (Ascii.eqb_spec c' " "); [| exact Hplain].
      subst. rewrite (concat_cons _ _ _ (split_nonempty "" s)), IH1.
      reflexivity. }
  apply H.
Qed.

(** Exploding a posting loses nothing: every row it yields carries the
    posting itself, there is at least one, and the skills of the rows,
    joined by ", ", are the posting's [required_skills]. *)
Theorem exploded_skills_join_back (p : Streamlit.Posting) (s : string) :
  Streamlit.required_skills p = Some s ->
  Streamlit.explode p <> [] /\
  (forall r, In r (Streamlit.explode p) -> fst r = p /\ snd r <> None) /\
  String.concat ", " (notnull (map snd (Streamlit.explode p))) = s.
Proof.
  intros H. unfold Streamlit.explode. rewrite H. split; [| split].
  - pose proof (split_nonempty "" s) as Hne.
    destruct (Streamlit.split "" s); [congruence | discriminate].
  - intros r Hr. apply in_map_iff in Hr. destruct Hr as (k & <- & _).
    split; [reflexivity | discriminate].
  - rewrite map_map. simpl.
    assert (E : forall l : list string, notnull (map Some l) = l).
    { induction l as [| x l IH]; simpl; [reflexivity | rewrite IH; reflexivity]. }
    rewrite E. apply (split_join "" s).
Qed.

Lemma exploded_skills_join_back_witness :
  let p := Streamlit.mkPosting (Some "AI00001"%string) "SE"
             (Some "Python, SQL"%string) (Some 100000%Q) in
  Streamlit.required_skills p = Some "Python, SQL"%string /\
  String.concat ", " (notnull (map snd (Streamlit.explode p)))
  = "Python, SQL"%string.
Proof.
  intros p.
  assert (H : Streamlit.required_skills p = Some "Python, SQL"%string)
    by reflexivity.
  split; [exact H |].
  exact (proj2 (proj2 (exploded_skills_join_back p "Python, SQL" H))).
Defined.

End ExplodeProperties.

(** ** The skills column of the loaded frame *)

Section CleaningProperties.

Import SkillWars.

(** What is left of a text after [lstrip] is an end of the text, and
    stripping it again changes nothing. *)
Lemma lstrip_spec (n : nat) :
  forall l, (List.length l <= n)%nat ->
            (exists pre, l = (pre ++ lstrip l)%list) /\
            lstrip (lstrip l) = lstrip l.
Proof.
  induction n as [| n IH]; intros l Hlen.
  - destruct l; [| simpl in Hlen; lia]. split; [exists []; reflexivity | reflexivity].
  - destruct l as [| a l1]; [split; [exists []; reflexivity | reflexivity] |].
    simpl in Hlen.
    destruct (space1 a) eqn:E1.
    { destruct (IH l1 ltac:(lia)) as [(pre & Hpre) Hfix].
      simpl. rewrite E1. split; [| exact Hfix].
      exists (a :: pre). simpl. rewrite <- Hpre. reflexivity. }
    destruct l1 as [| b l2].
    { simpl. rewrite E1. split; [exists []; reflexivity |].
      simpl. rewrite E1. reflexivity. }
    simpl in Hlen.
    destruct (space2 a b) eqn:E2.
    { destruct (IH l2 ltac:(lia)) as [(pre & Hpre) Hfix].
      simpl. rewrite E1, E2. split; [| exact Hfix].
      exists (a :: b :: pre). simpl. rewrite <- Hpre. reflexivity. }
    destruct l2 as [| c l3].
    { simpl. rewrite E1, E2. split; [exists []; reflexivity |].
      simpl. rewrite E1, E2. reflexivity. }
    simpl in Hlen.
    destruct (space3 a b c) eqn:E3.
    { destruct (IH l3 ltac:(lia)) as [(pre & Hpre) Hfix].
      simpl. rewrite E1, E2, E3. split; [| exact Hfix].
      exists (a :: b :: c :: pre). simpl. rewrite <- Hpre. reflexivity. }
    simpl. rewrite E1, E2, E3. split; [exists []; reflexivity |].
    simpl. rewrite E1, E2, E3. reflexivity.
Qed.

Lemma lstrip_reversed_spec (n : nat) :
  forall l, (List.length l <= n)%nat ->
            (exists pre, l = (pre ++ lstrip_reversed l)%list) /\
            lstrip_reversed (lstrip_reversed l) = lstrip_reversed l.
Proof.
  induction n as [| n IH]; intros l Hlen.
  - destruct l; [| simpl in Hlen; lia]. split; [exists []; reflexivity | reflexivity].
  - destruct l as [| a l1]; [split; [exists []; reflexivity | reflexivity] |].
    simpl in Hlen.
    destruct (space1 a) eqn:E1.
    { destruct (IH l1 ltac:(lia)) as [(pre & Hpre) Hfix].
      simpl. rewrite E1. split; [| exact Hfix].
      exists (a :: pre). simpl. rewrite <- Hpre. reflexivity. }
    destruct l1 as [| b l2].
    { simpl. rewrite E1. split; [exists []; reflexivity |].
      simpl. rewrite E1. reflexivity. }
    simpl in Hlen.
    destruct (space2 b a) eqn:E2.
    { destruct (IH l2 ltac:(lia)) as [(pre & Hpre) Hfix].
      simpl. rewrite E1, E2. split; [| exact Hfix].
      exists (a :: b :: pre). simpl. rewrite <- Hpre. reflexivity. }
    destruct l2 as [| c l3].
    { simpl. rewrite E1, E2. split; [exists []; reflexivity |].
      simpl. rewrite E1, E2. reflexivity. }
    simpl in Hlen.
    destruct (space3 c b a) eqn:E3.
    { destruct (IH l3 ltac:(lia)) as [(pre & Hpre) Hfix].
      simpl. rewrite E1, E2, E3. split; [| exact Hfix].
      exists (a :: b :: c :: pre). simpl. rewrite <- Hpre. reflexivity. }
    simpl. rewrite E1, E2, E3. split; [exists []; reflexivity |].
    simpl. rewrite E1, E2, E3. reflexivity.
Qed.

Lemma lstrip_end (l : list ascii) : exists pre, l = (pre ++ lstrip l)%list.
Proof. apply (lstrip_spec (List.length l) l (le_n _)). Qed.

Lemma lstrip_fixed (l : list ascii) : lstrip (lstrip l) = lstrip l.
Proof. apply (lstrip_spec (List.length l) l (le_n _)). Qed.

Lemma lstrip_length (l : list ascii) :
  (List.length (lstrip l) <= List.length l)%nat.
Proof.
  destruct (lstrip_end l) as (pre & E). rewrite E at 2.
  rewrite length_app. lia.
Qed.

Lemma rstrip_start (l : list ascii) : exists post, l = (rstrip l ++ post)%list.
Proof.
  unfold rstrip.
  destruct (proj1 (lstrip_reversed_spec _ (rev l) (le_n _))) as (pre & E).
  exists (rev pre). rewrite <- rev_app_distr, <- E, rev_involutive. reflexivity.
Qed.

Lemma rstrip_fixed (l : list ascii) : rstrip (rstrip l) = rstrip l.
Proof.
  unfold rstrip. rewrite rev_involutive.
  rewrite (proj2 (lstrip_reversed_spec _ (rev l) (le_n _))). reflexivity.
Qed.

(** A start of a text that begins with no white space begins with none. *)
Lemma lstrip_of_start (t u : list ascii) :
  lstrip (t ++ u) = (t ++ u)%list -> lstrip t = t.
Proof.
  intros H.
  assert (Hshort : forall x : list ascii,
             (List.length x < List.length (t ++ u))%nat ->
             lstrip x <> (t ++ u)%list).
  { intros x Hx E. pose proof (lstrip_length x) as Hl. rewrite E in Hl. lia. }
  destruct t as [| a [| b [| c t3]]]; try reflexivity; simpl in *.
  - destruct (space1 a); [| reflexivity].
    exfalso. apply (Hshort u); [lia | exact H].
  - destruct (space1 a).
    { exfalso. apply (Hshort (b :: u)); [simpl; lia | exact H]. }
    destruct (space2 a b); [| reflexivity].
    exfalso. apply (Hshort u); [lia | exact H].
  - destruct (space1 a).
    { exfalso. apply (Hshort (b :: c :: (t3 ++ u))%list); [simpl; lia | exact H]. }
    destruct (space2 a b).
    { exfalso. apply (Hshort (c :: (t3 ++ u))%list); [simpl; lia | exact H]. }
    destruct (space3 a b c); [| reflexivity].
    exfalso. apply (Hshort (t3 ++ u)%list); [lia | exact H].
Qed.

Lemma strip_bytes_fixed (l : list ascii) :
  rstrip (lstrip (rstrip (lstrip l))) = rstrip (lstrip l).
Proof.
  assert (E : lstrip (rstrip (lstrip l)) = rstrip (lstrip l)).
  { destruct (rstrip_start (lstrip l)) as (post & Hpost).
    apply lstrip_of_start with (u := post).
    rewrite <- Hpost. apply lstrip_fixed. }
  rewrite E. apply rstrip_fixed.
Qed.

Lemma strip_bytes_in (l : list ascii) (c : ascii) :
  In c (rstrip (lstrip l)) -> In c l.
Proof.
  intros H.
  destruct (rstrip_start (lstrip l)) as (post & Hpost).
  destruct (lstrip_end l) as (pre & Hpre).
  rewrite Hpre. apply in_or_app. right.
  rewrite Hpost. apply in_or_app. left. exact H.
Qed.

Lemma split_commas_pieces (l : list ascii) (piece : list ascii) (c : ascii) :
  In piece (split_commas l) -> In c piece -> c <> ","%char /\ In c l.
Proof.
  revert piece. induction l as [| a l IH]; simpl; intros piece Hp Hc.
  - destruct Hp as [<- | []]. destruct Hc.
  - destruct (Ascii.eqb_spec a ",") as [-> | Hne].
    + destruct Hp as [<- | Hp]; [destruct Hc |].
      destruct (IH piece Hp Hc) as [H1 H2]. split; [exact H1 | right; exact H2].
    + destruct (split_commas l) as [| p ps] eqn:E.
      * destruct Hp as [<- | []]. destruct Hc as [<- | []].
        split; [exact Hne | left; reflexivity].
      * destruct Hp as [<- | Hp].
        -- destruct Hc as [<- | Hc]; [split; [exact Hne | left; reflexivity] |].
           destruct (IH p (or_introl eq_refl) Hc) as [H1 H2].
           split; [exact H1 | right; exact H2].
        -- destruct (IH piece (or_intror Hp) Hc) as [H1 H2].
           split; [exact H1 | right; exact H2].
Qed.

Lemma skills_of_clean (s skill : string) :
  In skill (skills_of s) ->
  skill <> ""%string /\
  strip skill = skill /\
  (forall c, In c (list_ascii_of_string skill) ->
             ~ In c [","; "["; "]"; "'"]%char).
Proof.
  unfold skills_of. intros H. apply filter_In in H. destruct H as [H Hne].
  apply in_map_iff in H. destruct H as (piece & <- & Hpiece).
  split; [| split].
  - intros E. rewrite E in Hne. discriminate.
  - unfold strip. rewrite !list_ascii_of_string_of_list_ascii.
    rewrite strip_bytes_fixed. reflexivity.
  - intros c Hc. unfold strip in Hc.
    rewrite !list_ascii_of_string_of_list_ascii in Hc.
    apply strip_bytes_in in Hc.
    destruct (split_commas_pieces _ _ _ Hpiece Hc) as [Hcomma Hin].
    unfold remove_brackets in Hin. apply filter_In in Hin.
    destruct Hin as [_ Hb]. apply negb_true_iff in Hb.
    unfold is_bracket_or_quote in Hb.
    apply orb_false_iff in Hb. destruct Hb as [Hb H3].
    apply orb_false_iff in Hb. destruct Hb as [H1 H2].
    apply Ascii.eqb_neq in H1, H2, H3.
    simpl. intuition congruence.
Qed.

Lemma exploded_skills_rows (col : list (option string)) (index i : nat)
    (skill : string) :
  In (i, skill) (exploded_skills index col) <->
  ((index <= i)%nat /\
   exists s, nth_error col (i - index) = Some (Some s) /\ In skill (skills_of s)).
Proof.
  revert index. induction col as [| [s |] col IH]; intros index; simpl.
  - split; [tauto |]. intros (_ & s & H & _).
    destruct (i - index)%nat; discriminate.
  - rewrite in_app_iff, IH. split.
    + intros [H | (Hle & s' & Hnth & Hin)].
      * apply in_map_iff in H. destruct H as (k & [= <- <-] & Hk).
        split; [lia |]. exists s. rewrite Nat.sub_diag. split; [reflexivity | exact Hk].
      * split; [lia |]. exists s'. split; [| exact Hin].
        replace (i - index)%nat with (S (i - S index)) by lia. exact Hnth.
    + intros (Hle & s' & Hnth & Hin).
      destruct (Nat.eq_dec i index) as [-> | Hne].
      * left. rewrite Nat.sub_diag in Hnth. injection Hnth as <-.
        apply in_map_iff. exists skill. split; [reflexivity | exact Hin].
      * right. split; [lia |]. exists s'. split; [| exact Hin].
        replace (i - index)%nat with (S (i - S index)) in Hnth by lia. exact Hnth.
  - rewrite IH. split.
    + intros (Hle & s' & Hnth & Hin). split; [lia |]. exists s'.
      split; [| exact Hin].
      replace (i - index)%nat with (S (i - S index)) by lia. exact Hnth.
    + intros (Hle & s' & Hnth & Hin).
      destruct (Nat.eq_dec i index) as [-> | Hne].
      * rewrite Nat.sub_diag in Hnth. discriminate.
      * split; [lia |]. exists s'. split; [| exact Hin].
        replace (i - index)%nat with (S (i - S index)) in Hnth by lia. exact Hnth.
Qed.

(** The column [skills_list] of the loaded frame.  Its entries for the row
    [i] of the file are exactly the cleaned skills of that row's
    [required_skills], none for a row without; and every entry is a skill
    that is not empty, that [strip] leaves as it is, and that contains no
    comma, no square bracket and no single quote. *)
Theorem loaded_skills_are_clean (required_skills : list (option string))
    (i : nat) (skill : string) :
  (In (i, skill) (exploded_skills 0 required_skills) <->
   exists s, nth_error required_skills i = Some (Some s) /\
             In skill (skills_of s)) /\
  (In (i, skill) (exploded_skills 0 required_skills) ->
   skill <> ""%string /\
   strip skill = skill /\
   forall c, In c (list_ascii_of_string skill) ->
             ~ In c [","; "["; "]"; "'"]%char).
Proof.
  assert (Hrows : In (i, skill) (exploded_skills 0 required_skills) <->
                  exists s, nth_error required_skills i = Some (Some s) /\
                            In skill (skills_of s)).
  { rewrite exploded_skills_rows, Nat.sub_0_r. split.
    - intros [_ H]. exact H.
    - intros H. split; [lia | exact H]. }
  split; [exact Hrows |].
  intros H. apply Hrows in H. destruct H as (s & _ & Hin).
  apply (skills_of_clean s skill Hin).
Qed.

Lemma loaded_skills_are_clean_witness :
  let column := [Some "['Python', ' SQL ']"%string; None; Some "ML"%string] in
  In (0%nat, "SQL"%string) (exploded_skills 0 column) /\
  "SQL"%string <> ""%string /\
  strip "SQL" = "SQL"%string.
Proof.
  intros column.
  assert (H : In (0%nat, "SQL"%string) (exploded_skills 0 column))
    by (right; left; reflexivity).
  split; [exact H |].
  destruct (proj2 (loaded_skills_are_clean column 0 "SQL") H) as (H1 & H2 & _).
  split; [exact H1 | exact H2].
Defined.

End CleaningProperties.

(** ** Missing values and the range of the score *)

Section MissingValueProperties.

Import JobRoles.

Local Open Scope Q_scope.

Lemma series_max_none (s : list float) :
  series_max s = None -> forall a, In a s -> a = None.
Proof.
  intros H a Ha. destruct a as [x |]; [| reflexivity].
  destruct (series_max_some s x Ha) as (m & Hm & _). congruence.
Qed.

Lemma series_none_min (s : list float) :
  (forall a, In a s -> a = None) -> series_min s = None.
Proof.
  intros H. destruct (series_min s) as [m |] eqn:E; [| reflexivity].
  apply series_min_in in E. apply H in E. discriminate.
Qed.

(** A metric without any raw value (a column that is missing throughout)
    stays missing: the guard against a zero range does not hold for it, and
    every row of its frame has a missing raw value and a missing normalized
    value. *)
Theorem metric_without_values_stays_missing (name : string)
    (temp_df : list (Cell * float)) :
  series_max (map snd temp_df) = None ->
  forall row, In row (normalization name temp_df) ->
              raw_value row = None /\ normalized_value row = None.
Proof.
  intros Hmax row Hrow.
  destruct (in_normalization _ _ _ Hrow) as (g & raw & Hin & ->). simpl.
  pose proof (series_max_none _ Hmax) as Hall.
  rewrite Hmax, (series_none_min _ Hall).
  rewrite (Hall raw (in_raw_column _ _ _ Hin)). split; reflexivity.
Qed.

Lemma metric_without_values_stays_missing_witness :
  let temp_df := [(Str "A", None); (Str "B", None)] in
  let row := mkPlotRow (Str "B") None None "Benefits Score" in
  series_max (map snd temp_df) = None /\
  In row (normalization "Benefits Score" temp_df) /\
  raw_value row = None /\ normalized_value row = None.
Proof.
  intros temp_df row.
  assert (H1 : series_max (map snd temp_df) = None) by reflexivity.
  assert (H2 : In row (normalization "Benefits Score" temp_df))
    by (right; left; reflexivity).
  split; [exact H1 |]. split; [exact H2 |].
  exact (metric_without_values_stays_missing "Benefits Score" temp_df H1 row H2).
Defined.

End MissingValueProperties.

Section ScoreProperties.

Import SkillWars.

Local Open Scope Q_scope.

Lemma count_dropna (s : list float) : count s = List.length (dropna s).
Proof.
  unfold count. induction s as [| [x |] s IH]; simpl; [reflexivity | | exact IH].
  rewrite IH. reflexivity.
Qed.

Lemma mean_is_number (s : list float) :
  (1 <= count s)%nat -> exists v, mean s = Some v.
Proof.
  rewrite count_dropna. unfold mean.
  destruct (dropna s) as [| x l]; simpl; [lia |]. intros _. eexists. reflexivity.
Qed.

Lemma score_is_number (stats : list Stat) (s : Stat) (v : Q) :
  In s stats -> Average_Salary s = Some v ->
  exists x,
    score (series_max (map Average_Salary stats))
          (series_max (map (fun s => of_nat (Job_Count s)) stats)) s = Some x.
Proof.
  intros Hin Hv.
  assert (H1 : In (Some v) (map Average_Salary stats)).
  { rewrite <- Hv. apply in_map. exact Hin. }
  assert (H2 : In (Some (inject_Z (Z.of_nat (Job_Count s))))
                  (map (fun s => of_nat (Job_Count s)) stats)).
  { apply (in_map (fun s => of_nat (Job_Count s))) in Hin. exact Hin. }
  destruct (series_max_some _ _ H1) as (m1 & E1 & _).
  destruct (series_max_some _ _ H2) as (m2 & E2 & _).
  unfold score. rewrite E1, E2, Hv. simpl. eexists. reflexivity.
Qed.

(** In the page under src/pages every row of the table has an average salary
    that is a number: its job count counts the postings that state a
    salary, and there are at least ten of them.  When the largest of these
    salaries is not zero, so that the score divides by a number that is not
    zero, every score is a number as well. *)
Theorem app_table_has_no_missing_value (df : App.Frame) (check_all : bool)
    (checkbox : string -> bool) (table : list Labeled) :
  App.main df check_all checkbox = Rendered table ->
  (forall row, In row table -> exists v, Average_Salary (stat row) = Some v) /\
  ((forall m,
       series_max (map (fun r => Average_Salary (stat r)) table) = Some m ->
       ~ m == 0) ->
   forall row, In row table -> exists x, Score row = Some x).
Proof.
  intros H.
  assert (Hboth : forall row, In row table ->
                    (exists v, Average_Salary (stat row) = Some v) /\
                    (exists x, Score row = Some x));
    [| split; [intros row Hrow; apply (Hboth row Hrow)
              | intros _ row Hrow; apply (Hboth row Hrow)]].
  intros row Hrow. apply app_main_rendered in H. subst table.
  match type of Hrow with
  | context [label_logic _ ?t] => set (stats := t) in *
  end.
  assert (Hsal : exists v, Average_Salary (stat row) = Some v).
  { pose proof (table_names _ _ _ Hrow) as Hs. unfold stats, round_salary in Hs.
    apply in_map_iff in Hs. destruct Hs as (s & <- & Hs). simpl.
    unfold enough_postings in Hs. apply filter_In in Hs. destruct Hs as [Hs Hten].
    apply Nat.leb_le in Hten.
    unfold App.aggregate in Hs. apply in_map_iff in Hs.
    destruct Hs as (k & <- & _). cbn [Job_Count Average_Salary] in *.
    match type of Hten with
    | (10 <= count ?s)%nat =>
        assert (Hone : (1 <= count s)%nat) by lia;
        destruct (mean_is_number s Hone) as (v & ->)
    end.
    simpl. eexists. reflexivity. }
  split; [exact Hsal |]. destruct Hsal as (v & Hv).
  pose proof (table_names _ _ _ Hrow) as Hs.
  apply label_logic_rows in Hrow. destruct Hrow as [Hin _].
  unfold with_score in Hin. apply in_map_iff in Hin.
  destruct Hin as (s & [= Hs1 Hs2] & _). rewrite <- Hs2, Hs1.
  apply (score_is_number stats (stat row) v Hs Hv).
Qed.

Lemma app_table_has_no_missing_value_witness :
  let python := nth 0 Samples.exploded_postings_table
                      (mkLabeled (mkStat "" None 0) None "") in
  App.main Samples.exploded_postings true Samples.every_level
  = Rendered Samples.exploded_postings_table /\
  (forall m,
      series_max (map (fun r => Average_Salary (stat r))
                      Samples.exploded_postings_table) = Some m ->
      ~ m == 0) /\
  In python Samples.exploded_postings_table /\
  (exists v, Average_Salary (stat python) = Some v) /\
  (exists x, Score python = Some x).
Proof.
  intros python.
  assert (H1 : App.main Samples.exploded_postings true Samples.every_level
               = Rendered Samples.exploded_postings_table)
    by (vm_compute; reflexivity).
  assert (H2 : forall m,
             series_max (map (fun r => Average_Salary (stat r))
                             Samples.exploded_postings_table) = Some m ->
             ~ m == 0).
  { intros m Hm. vm_compute in Hm. injection Hm as <-. discriminate. }
  assert (H3 : In python Samples.exploded_postings_table)
    by (left; reflexivity).
  split; [exact H1 |]. split; [exact H2 |]. split; [exact H3 |]. split.
  - exact (proj1 (app_table_has_no_missing_value Samples.exploded_postings true
                    Samples.every_level Samples.exploded_postings_table H1)
                 python H3).
  - exact (proj2 (app_table_has_no_missing_value Samples.exploded_postings true
                    Samples.every_level Samples.exploded_postings_table H1)
                 H2 python H3).
Defined.

(** The range of the score.  In a table whose salaries are numbers that are
    not negative, with a largest salary above zero and at least one posting
    per skill, every score is a number above 0 and at most 2. *)
Theorem score_lies_between_zero_and_two (n : nat) (stats : list Stat)
    (salary_max : Q) :
  (forall s, In s stats -> exists v, Average_Salary s = Some v /\ 0 <= v) ->
  series_max (map Average_Salary stats) = Some salary_max ->
  0 < salary_max ->
  (forall s, In s stats -> (1 <= Job_Count s)%nat) ->
  forall row, In row (label_logic n stats) ->
              exists x, Score row = Some x /\ 0 < x /\ x <= 2.
Proof.
  intros Hsal Hmax Hpos Hcount row Hrow.
  pose proof (table_names _ _ _ Hrow) as Hs.
  apply label_logic_rows in Hrow. destruct Hrow as [Hin _].
  unfold with_score in Hin. apply in_map_iff in Hin.
  destruct Hin as (s & [= Hs1 Hs2] & _). rewrite <- Hs2, Hs1. clear s Hs1 Hs2.
  destruct (Hsal _ Hs) as (v & Hv & Hv0).
  assert (H1 : In (Some v) (map Average_Salary stats)).
  { rewrite <- Hv. apply in_map. exact Hs. }
  destruct (series_max_some _ _ H1) as (m1 & E1 & Hle1).
  rewrite Hmax in E1. injection E1 as <-.
  assert (H2 : In (Some (inject_Z (Z.of_nat (Job_Count (stat row)))))
                  (map (fun s => of_nat (Job_Count s)) stats)).
  { apply (in_map (fun s => of_nat (Job_Count s))) in Hs. exact Hs. }
  destruct (series_max_some _ _ H2) as (m2 & E2 & Hle2).
  unfold score. rewrite Hmax, E2, Hv. simpl.
  eexists. split; [reflexivity |].
  assert (Hc : 1 <= inject_Z (Z.of_nat (Job_Count (stat row)))).
  { change 1 with (inject_Z 1). rewrite <- Zle_Qle.
    specialize (Hcount _ Hs). lia. }
  revert Hle2 Hc.
  generalize (inject_Z (Z.of_nat (Job_Count (stat row)))). intros c Hle2 Hc.
  assert (Hm2 : 0 < m2) by lra.
  assert (A1 : 0 <= v / salary_max) by (apply Qle_shift_div_l; lra).
  assert (A2 : v / salary_max <= 1) by (apply Qle_shift_div_r; lra).
  assert (B1 : 0 < c / m2) by (apply Qlt_shift_div_l; lra).
  assert (B2 : c / m2 <= 1) by (apply Qle_shift_div_r; lra).
  lra.
Qed.

Lemma score_lies_between_zero_and_two_witness :
  let row := mkLabeled (mkStat "Z" (Some 40000) 50)
                       (Some ((40000 / 100000) + (inject_Z 50 / inject_Z 100)))
                       "" in
  (forall s, In s Samples.skills ->
             exists v, Average_Salary s = Some v /\ 0 <= v) /\
  series_max (map Average_Salary Samples.skills) = Some 100000 /\
  0 < 100000 /\
  (forall s, In s Samples.skills -> (1 <= Job_Count s)%nat) /\
  In row (label_logic 2 Samples.skills) /\
  exists x, Score row = Some x /\ 0 < x /\ x <= 2.
Proof.
  intros row.
  assert (H1 : forall s, In s Samples.skills ->
                         exists v, Average_Salary s = Some v /\ 0 <= v).
  { intros s Hs. simpl in Hs.
    destruct Hs as [<- | [<- | [<- | []]]]; eexists;
      (split; [reflexivity | discriminate]). }
  assert (H2 : series_max (map Average_Salary Samples.skills) = Some 100000)
    by reflexivity.
  assert (H3 : 0 < 100000) by reflexivity.
  assert (H4 : forall s, In s Samples.skills -> (1 <= Job_Count s)%nat).
  { intros s Hs. simpl in Hs.
    destruct Hs as [<- | [<- | [<- | []]]]; simpl; lia. }
  assert (H5 : In row (label_logic 2 Samples.skills))
    by (right; right; left; reflexivity).
  split; [exact H1 |]. split; [exact H2 |]. split; [exact H3 |].
  split; [exact H4 |]. split; [exact H5 |].
  exact (score_lies_between_zero_and_two 2 Samples.skills 100000
           H1 H2 H3 H4 row H5).
Defined.

End ScoreProperties.
